(** * clickhouse-orm: query builder, connection adapter, schema DDL and model finders

    A shallow embedding of the JavaScript sources
    [lib/QueryBuilder.js], [lib/Connection.js], [lib/Schema.js] and
    [lib/Model.js], followed by the properties of the specification that are
    checked against them. *)

From Stdlib Require Import ZArith List String Ascii Bool Lia DecimalString.
Import ListNotations.
Open Scope string_scope.
Set Warnings "-register-all".

(* ================================================================= *)
(** ** JavaScript values *)

Module Js.

(** The fragment of JavaScript values the library manipulates.  A [VNum] is an
    integer-valued Number whose decimal rendering has no exponent
    (magnitude below 10^21); an object is the list of its own enumerable
    string-keyed properties in the order [Object.entries] reports them. *)
Inductive value : Type :=
| VUndefined
| VNull
| VBool (b : bool)
| VNum (z : Z)
| VStr (s : string)
| VArr (xs : list value)
| VObj (props : list (string * value)).

(** What a [throw] carries.  [TypeError] stands for the errors the runtime
    raises itself (reading a property of [null], calling a non-function);
    [Error] is [new Error(message)]. *)
Inductive error : Type :=
| TypeError (msg : string)
| Error (msg : string).

Definition message (e : error) : string :=
  match e with TypeError m => m | Error m => m end.

Inductive completion (A : Type) : Type :=
| Normal (a : A)
| Throw (e : error).
Arguments Normal {A} a.
Arguments Throw {A} e.

Definition number_to_string (z : Z) : string :=
  NilZero.string_of_int (Z.to_int z).

Definition index_to_string (n : nat) : string :=
  NilZero.string_of_uint (Nat.to_uint n).

(** [ToString], as applied by template literals and by [Array.prototype.join]:
    an array renders as its elements joined by a comma, with [null] and
    [undefined] elements rendered empty; a plain object renders as
    [[object Object]]. *)
Fixpoint toString (v : value) : string :=
  match v with
  | VUndefined => "undefined"
  | VNull => "null"
  | VBool true => "true"
  | VBool false => "false"
  | VNum z => number_to_string z
  | VStr s => s
  | VArr xs =>
      (fix commas (l : list value) : string :=
         match l with
         | [] => ""
         | x :: rest =>
             let sx := match x with
                       | VUndefined | VNull => ""
                       | _ => toString x
                       end in
             match rest with
             | [] => sx
             | _ :: _ => sx ++ "," ++ commas rest
             end
         end) xs
  | VObj _ => "[object Object]"
  end.

(** The string an array element contributes to [join]. *)
Definition element_string (v : value) : string :=
  match v with
  | VUndefined | VNull => ""
  | _ => toString v
  end.

(** [xs.join(sep)]. *)
Definition join (sep : string) (xs : list value) : string :=
  String.concat sep (map element_string xs).

(** [ToBoolean]. *)
Definition truthy (v : value) : bool :=
  match v with
  | VUndefined | VNull => false
  | VBool b => b
  | VNum z => negb (Z.eqb z 0)
  | VStr s => negb (String.eqb s "")
  | VArr _ | VObj _ => true
  end.

(** [a || b]. *)
Definition or_else (a b : value) : value := if truthy a then a else b.

Definition is_string (v : value) : bool :=
  match v with VStr _ => true | _ => false end.

Definition is_array (v : value) : bool :=
  match v with VArr _ => true | _ => false end.

Fixpoint lookup (k : string) (props : list (string * value)) : value :=
  match props with
  | [] => VUndefined
  | (k', v) :: rest => if String.eqb k k' then v else lookup k rest
  end.

(** [v.k] for a key that no prototype defines: a property read on [null] or
    [undefined] throws, on a primitive or an array it is [undefined]. *)
Definition get (v : value) (k : string) : completion value :=
  match v with
  | VUndefined => Throw (TypeError "Cannot read properties of undefined")
  | VNull => Throw (TypeError "Cannot read properties of null")
  | VObj props => Normal (lookup k props)
  | _ => Normal VUndefined
  end.

Fixpoint indexed (n : nat) (xs : list value) : list (string * value) :=
  match xs with
  | [] => []
  | x :: rest => (index_to_string n, x) :: indexed (S n) rest
  end.

Fixpoint chars (s : string) : list value :=
  match s with
  | EmptyString => []
  | String c rest => VStr (String c EmptyString) :: chars rest
  end.

(** [Object.entries(v)]. *)
Definition entries (v : value) : completion (list (string * value)) :=
  match v with
  | VUndefined | VNull =>
      Throw (TypeError "Cannot convert undefined or null to object")
  | VObj props => Normal props
  | VArr xs => Normal (indexed 0 xs)
  | VStr s => Normal (indexed 0 (chars s))
  | VBool _ | VNum _ => Normal []
  end.

(** [{...o, k: v}]: the key keeps its place when [o] already has it and is
    appended otherwise. *)
Fixpoint set_prop (k : string) (v : value) (props : list (string * value))
  : list (string * value) :=
  match props with
  | [] => [(k, v)]
  | (k', v') :: rest =>
      if String.eqb k k' then (k', v) :: rest
      else (k', v') :: set_prop k v rest
  end.

(** An imperative body over a mutable state [S]: it leaves a state behind
    even when it throws, and completes normally or abruptly. *)
Definition prog (S A : Type) : Type := S -> completion A * S.

Definition ret {S A} (a : A) : prog S A := fun s => (Normal a, s).

Definition throw {S A} (e : error) : prog S A := fun s => (Throw e, s).

Definition bind {S A B} (m : prog S A) (k : A -> prog S B) : prog S B :=
  fun s =>
    match m s with
    | (Normal a, s') => k a s'
    | (Throw e, s') => (Throw e, s')
    end.

Definition lift {S A} (c : completion A) : prog S A := fun s => (c, s).

Definition modify {S} (f : S -> S) : prog S unit :=
  fun s => (Normal tt, f s).

(** [try { body } catch (error) { handler(error) }]. *)
Definition try_catch {S A} (body : prog S A) (handler : error -> prog S A)
  : prog S A :=
  fun s =>
    match body s with
    | (Normal a, s') => (Normal a, s')
    | (Throw e, s') => handler e s'
    end.

Declare Scope prog_scope.
Delimit Scope prog_scope with prog.
Notation "x <- m ;; k" := (bind m (fun x => k))
  (at level 61, m at next level, right associativity) : prog_scope.
Notation "m ;;; k" := (bind m (fun _ => k))
  (at level 61, right associativity) : prog_scope.

End Js.

(* ================================================================= *)
(** ** lib/Connection.js *)

Module Connection.
Import Js.
Open Scope prog_scope.

(** The argument of the external client's [query]. *)
Record request : Type := mkRequest {
  r_query : value;
  r_format : value;
  r_query_params : value
}.

(** What the external client resolves a query with: an object whose [json()]
    resolves to the parsed rows or rejects. *)
Record result_set : Type := mkResultSet {
  json : completion value
}.

(** The collaborator [@clickhouse/client]: [createClient] may throw, and the
    client answers a request, given the requests it has received before, by
    resolving or rejecting. *)
Record driver : Type := mkDriver {
  createClient : value -> completion unit;
  client_query : list request -> request -> completion result_set
}.

(** The connection object, together with the requests the external client
    has received so far ([sent] is not a field of the object: it records
    the traffic). *)
Record state : Type := mkState {
  config : value;
  client : bool;
  isConnected : bool;
  sent : list request
}.

(** What [query] resolves with. *)
Inductive response : Type :=
| Json (v : value)
| Raw (r : result_set).

(** [connect()]; the result tells whether the client it returns is an object
    ([true]) or [null]. *)
Definition connect (d : driver) : prog state bool :=
  fun s =>
    if isConnected s then (Normal (client s), s)
    else
      try_catch
        (host <- lift (get (config s) "host") ;;
         port <- lift (get (config s) "port") ;;
         username <- lift (get (config s) "username") ;;
         password <- lift (get (config s) "password") ;;
         database <- lift (get (config s) "database") ;;
         settings <- lift (get (config s) "settings") ;;
         lift (createClient d (VObj
           [("host", VStr ("http://" ++ toString host ++ ":" ++ toString port));
            ("username", username);
            ("password", password);
            ("database", database);
            ("clickhouse_settings", or_else settings (VObj []))])) ;;;
         modify (fun s => mkState (config s) true true (sent s)) ;;;
         ret true)
        (fun e =>
           throw (Error ("Failed to connect to ClickHouse: " ++ message e)))
        s.

(** [await client.query(req)]. *)
Definition call_client (d : driver) (req : request) : prog state result_set :=
  fun s =>
    (client_query d (sent s) req,
     mkState (config s) (client s) (isConnected s) (sent s ++ [req])).

(** [v === 'JSON']. *)
Definition is_JSON (v : value) : bool :=
  match v with VStr s => String.eqb s "JSON" | _ => false end.

(** [query(sql, options = {})].  The [try] block hands back either the
    promise of [result.json()], which is returned without being awaited and
    so settles outside the [catch], or the result itself. *)
Definition query (d : driver) (sql options : value) : prog state response :=
  let options := match options with VUndefined => VObj [] | _ => options end in
  returned <-
    try_catch
      (c <- connect d ;;
       (if c then ret tt
        else throw (TypeError "Cannot read properties of null")) ;;;
       format <- lift (get options "format") ;;
       params <- lift (get options "params") ;;
       result <- call_client d
                   (mkRequest sql (or_else format (VStr "JSON"))
                                  (or_else params (VObj []))) ;;
       format <- lift (get options "format") ;;
       if is_JSON format || negb (truthy format)
       then ret (inl (json result))
       else ret (inr result))
      (fun e => throw (Error ("Query execution failed: " ++ message e))) ;;
  match returned with
  | inl promise => v <- lift promise ;; ret (Json v)
  | inr result => ret (Raw result)
  end.

End Connection.

(* ================================================================= *)
(** ** lib/QueryBuilder.js *)

Module QueryBuilder.
Import Js.
Open Scope prog_scope.

(** One element of [this.query.joins]. *)
Record join_descriptor : Type := mkJoin {
  j_type : value;
  j_table : value;
  j_condition : value
}.

(** [this.query].  [where] and [having] only ever receive strings; [select],
    [groupBy] and [orderBy] can be handed a caller's array as it is. *)
Record query : Type := mkQuery {
  q_select : list value;
  q_from : value;
  q_joins : list join_descriptor;
  q_where : list string;
  q_groupBy : list value;
  q_having : list string;
  q_orderBy : list value;
  q_limit : value;
  q_offset : value
}.

(** The state the constructor installs. *)
Definition constructor : query :=
  {| q_select := []; q_from := VStr ""; q_joins := []; q_where := [];
     q_groupBy := []; q_having := []; q_orderBy := [];
     q_limit := VNull; q_offset := VNull |}.

(** A method body runs on the builder. *)
Definition method (A : Type) : Type := prog query A.

Definition set_select (xs : list value) (q : query) : query :=
  {| q_select := xs; q_from := q_from q; q_joins := q_joins q;
     q_where := q_where q; q_groupBy := q_groupBy q; q_having := q_having q;
     q_orderBy := q_orderBy q; q_limit := q_limit q; q_offset := q_offset q |}.

Definition set_from (t : value) (q : query) : query :=
  {| q_select := q_select q; q_from := t; q_joins := q_joins q;
     q_where := q_where q; q_groupBy := q_groupBy q; q_having := q_having q;
     q_orderBy := q_orderBy q; q_limit := q_limit q; q_offset := q_offset q |}.

Definition set_joins (js : list join_descriptor) (q : query) : query :=
  {| q_select := q_select q; q_from := q_from q; q_joins := js;
     q_where := q_where q; q_groupBy := q_groupBy q; q_having := q_having q;
     q_orderBy := q_orderBy q; q_limit := q_limit q; q_offset := q_offset q |}.

Definition set_where (ws : list string) (q : query) : query :=
  {| q_select := q_select q; q_from := q_from q; q_joins := q_joins q;
     q_where := ws; q_groupBy := q_groupBy q; q_having := q_having q;
     q_orderBy := q_orderBy q; q_limit := q_limit q; q_offset := q_offset q |}.

Definition set_groupBy (gs : list value) (q : query) : query :=
  {| q_select := q_select q; q_from := q_from q; q_joins := q_joins q;
     q_where := q_where q; q_groupBy := gs; q_having := q_having q;
     q_orderBy := q_orderBy q; q_limit := q_limit q; q_offset := q_offset q |}.

Definition set_having (hs : list string) (q : query) : query :=
  {| q_select := q_select q; q_from := q_from q; q_joins := q_joins q;
     q_where := q_where q; q_groupBy := q_groupBy q; q_having := hs;
     q_orderBy := q_orderBy q; q_limit := q_limit q; q_offset := q_offset q |}.

Definition set_orderBy (os : list value) (q : query) : query :=
  {| q_select := q_select q; q_from := q_from q; q_joins := q_joins q;
     q_where := q_where q; q_groupBy := q_groupBy q; q_having := q_having q;
     q_orderBy := os; q_limit := q_limit q; q_offset := q_offset q |}.

Definition set_limit (n : value) (q : query) : query :=
  {| q_select := q_select q; q_from := q_from q; q_joins := q_joins q;
     q_where := q_where q; q_groupBy := q_groupBy q; q_having := q_having q;
     q_orderBy := q_orderBy q; q_limit := n; q_offset := q_offset q |}.

Definition set_offset (n : value) (q : query) : query :=
  {| q_select := q_select q; q_from := q_from q; q_joins := q_joins q;
     q_where := q_where q; q_groupBy := q_groupBy q; q_having := q_having q;
     q_orderBy := q_orderBy q; q_limit := q_limit q; q_offset := n |}.

(** [this.query.where.push(s)]. *)
Definition push_where (s : string) : method unit :=
  modify (fun q => set_where (q_where q ++ [s]) q).

(** [select(fields)]. *)
Definition select (fields : value) : method unit :=
  match fields with
  | VStr s =>
      modify (set_select (if String.eqb s "*" then [VStr "*"] else [VStr s]))
  | VArr xs => modify (set_select xs)
  | _ => ret tt
  end.

(** [from(table)]. *)
Definition from (table : value) : method unit := modify (set_from table).

(** [join(table, condition, type = 'INNER')]: the default applies when the
    argument is [undefined]. *)
Definition join (table condition type : value) : method unit :=
  let type := match type with VUndefined => VStr "INNER" | _ => type end in
  modify (fun q => set_joins (q_joins q ++ [mkJoin type table condition]) q).

Definition leftJoin (table condition : value) : method unit :=
  join table condition (VStr "LEFT").

Definition rightJoin (table condition : value) : method unit :=
  join table condition (VStr "RIGHT").

(** The template [`'${v}'`]. *)
Definition quote (v : value) : string := "'" ++ toString v ++ "'".

(** [value.map(v => `'${v}'`).join(', ')]: only an array has [map]. *)
Definition quote_list (v : value) : completion string :=
  match v with
  | VArr xs => Normal (String.concat ", " (map quote xs))
  | VUndefined => Throw (TypeError "Cannot read properties of undefined")
  | VNull => Throw (TypeError "Cannot read properties of null")
  | _ => Throw (TypeError "value.map is not a function")
  end.

(** The body of the [switch] of [handleComplexCondition], for one entry. *)
Definition handle_entry (field operator : string) (v : value) : method unit :=
  if String.eqb operator "gt" then
    push_where (field ++ " > " ++ quote v)
  else if String.eqb operator "gte" then
    push_where (field ++ " >= " ++ quote v)
  else if String.eqb operator "lt" then
    push_where (field ++ " < " ++ quote v)
  else if String.eqb operator "lte" then
    push_where (field ++ " <= " ++ quote v)
  else if String.eqb operator "ne" then
    push_where (field ++ " != " ++ quote v)
  else if String.eqb operator "like" then
    push_where (field ++ " LIKE " ++ quote v)
  else if String.eqb operator "in" then
    l <- lift (quote_list v) ;;
    push_where (field ++ " IN (" ++ l ++ ")")
  else if String.eqb operator "notIn" then
    l <- lift (quote_list v) ;;
    push_where (field ++ " NOT IN (" ++ l ++ ")")
  else ret tt.

(** [for (const [k, v] of es) body(k, v)]. *)
Fixpoint for_entries (body : string -> value -> method unit)
  (es : list (string * value)) : method unit :=
  match es with
  | [] => ret tt
  | (k, v) :: rest => body k v ;;; for_entries body rest
  end.

(** [handleComplexCondition(field, condition)]. *)
Definition handleComplexCondition (field : string) (condition : value)
  : method unit :=
  es <- lift (entries condition) ;;
  for_entries (handle_entry field) es.

(** The body of the loop of [where], for one field. *)
Definition where_entry (field : string) (v : value) : method unit :=
  match v with
  | VArr xs =>
      push_where (field ++ " IN (" ++ String.concat ", " (map quote xs) ++ ")")
  | VObj _ => handleComplexCondition field v
  | _ => push_where (field ++ " = " ++ quote v)
  end.

(** [where(conditions)]. *)
Definition where_ (conditions : value) : method unit :=
  match conditions with
  | VStr s => push_where s
  | VNull | VArr _ | VObj _ =>
      es <- lift (entries conditions) ;;
      for_entries where_entry es
  | _ => ret tt
  end.

(** [groupBy(fields)]. *)
Definition groupBy (fields : value) : method unit :=
  match fields with
  | VStr s => modify (set_groupBy [VStr s])
  | VArr xs => modify (set_groupBy xs)
  | _ => ret tt
  end.

(** [having(conditions)]. *)
Definition having (conditions : value) : method unit :=
  match conditions with
  | VStr s => modify (fun q => set_having (q_having q ++ [s]) q)
  | _ => ret tt
  end.

(** [orderBy(field, direction = 'ASC')]. *)
Definition orderBy (field direction : value) : method unit :=
  let direction :=
    match direction with VUndefined => VStr "ASC" | _ => direction end in
  match field with
  | VStr s =>
      modify (fun q =>
        set_orderBy (q_orderBy q ++ [VStr (s ++ " " ++ toString direction)]) q)
  | VArr xs => modify (set_orderBy xs)
  | _ => ret tt
  end.

(** [limit(count)] and [offset(count)]. *)
Definition limit (count : value) : method unit := modify (set_limit count).

Definition offset (count : value) : method unit := modify (set_offset count).

(** [for (const join of this.query.joins) sql += ...]. *)
Fixpoint add_joins (sql : string) (js : list join_descriptor) : string :=
  match js with
  | [] => sql
  | j :: rest =>
      add_joins (sql ++ " " ++ toString (j_type j) ++ " JOIN "
                     ++ toString (j_table j) ++ " ON "
                     ++ toString (j_condition j)) rest
  end.

Definition is_null (v : value) : bool :=
  match v with VNull => true | _ => false end.

(** [build()], statement by statement on the local [sql]. *)
Definition build : method string := fun q =>
  let sql := "SELECT " ++ Js.join ", " (q_select q) ++ " FROM "
                       ++ toString (q_from q) in
  let sql := add_joins sql (q_joins q) in
  let sql := if (0 <? List.length (q_where q))%nat
             then sql ++ " WHERE " ++ String.concat " AND " (q_where q)
             else sql in
  let sql := if (0 <? List.length (q_groupBy q))%nat
             then sql ++ " GROUP BY " ++ Js.join ", " (q_groupBy q)
             else sql in
  let sql := if (0 <? List.length (q_having q))%nat
             then sql ++ " HAVING " ++ String.concat " AND " (q_having q)
             else sql in
  let sql := if (0 <? List.length (q_orderBy q))%nat
             then sql ++ " ORDER BY " ++ Js.join ", " (q_orderBy q)
             else sql in
  let sql := if negb (is_null (q_limit q))
             then sql ++ " LIMIT " ++ toString (q_limit q)
             else sql in
  let sql := if negb (is_null (q_offset q))
             then sql ++ " OFFSET " ++ toString (q_offset q)
             else sql in
  (Normal sql, q).

(** [execute()]. *)
Definition execute (d : Connection.driver) (q : query)
  : prog Connection.state Connection.response :=
  match build q with
  | (Normal sql, _) => Connection.query d (VStr sql) VUndefined
  | (Throw e, _) => throw e
  end.

End QueryBuilder.

(* ================================================================= *)
(** ** lib/Schema.js *)

Module Schema.
Import Js.
Open Scope prog_scope.

Definition nl : string := String (ascii_of_nat 10) EmptyString.

(** A model, as far as schema generation and the finders read it. *)
Record model : Type := mkModel {
  name : string;
  tableName : value;
  attributes : value;
  options : value
}.

Definition is_undefined (v : value) : bool :=
  match v with VUndefined => true | _ => false end.

(** [v !== false]. *)
Definition is_not_false (v : value) : bool :=
  match v with VBool false => false | _ => true end.

(** [generateColumnDefinition(fieldName, definition)]. *)
Definition generateColumnDefinition (fieldName : string) (definition : value)
  : completion string :=
  let sql := fieldName ++ " " in
  match definition with
  | VStr s => Normal (sql ++ s)
  | VNull => Throw (TypeError "Cannot read properties of null")
  | VArr _ | VObj _ =>
      let field k := match definition with
                     | VObj props => lookup k props
                     | _ => VUndefined
                     end in
      if truthy (field "type") then
        let sql := sql ++ toString (field "type") in
        let sql :=
          if negb (is_undefined (field "defaultValue")) then
            if is_string (field "defaultValue")
            then sql ++ " DEFAULT '" ++ toString (field "defaultValue") ++ "'"
            else sql ++ " DEFAULT " ++ toString (field "defaultValue")
          else sql in
        let sql :=
          if truthy (field "codec")
          then sql ++ " CODEC(" ++ toString (field "codec") ++ ")"
          else sql in
        let sql :=
          if truthy (field "comment")
          then sql ++ " COMMENT '" ++ toString (field "comment") ++ "'"
          else sql in
        Normal sql
      else Throw (Error ("Data type is required for field " ++ fieldName))
  | _ => Normal sql
  end.

(** The locals the attribute loop of [generateCreateTableSQL] updates. *)
Record locals : Type := mkLocals {
  columns : list string;
  indexes : list string;
  primaryKey : value
}.

(** The attribute loop. *)
Fixpoint process_attributes (es : list (string * value)) (l : locals)
  : completion locals :=
  match es with
  | [] => Normal l
  | (fieldName, definition) :: rest =>
      match generateColumnDefinition fieldName definition with
      | Throw e => Throw e
      | Normal column =>
          let columns := (columns l ++ [column])%list in
          match get definition "primaryKey" with
          | Throw e => Throw e
          | Normal pk =>
              let primaryKey :=
                if truthy pk then VStr fieldName else primaryKey l in
              match get definition "index" with
              | Throw e => Throw e
              | Normal ix =>
                  let indexes :=
                    if truthy ix then (indexes l ++ [fieldName])%list
                    else indexes l in
                  process_attributes rest (mkLocals columns indexes primaryKey)
              end
          end
      end
  end.

(** [Object.keys(o)[0]]. *)
Definition first_key (es : list (string * value)) : value :=
  match es with
  | [] => VUndefined
  | (k, _) :: _ => VStr k
  end.

Definition bindc {A B} (c : completion A) (k : A -> completion B)
  : completion B :=
  match c with
  | Normal a => k a
  | Throw e => Throw e
  end.

(** [generateCreateTableSQL(model, options = {})]. *)
Definition generateCreateTableSQL (m : model) (opts : value)
  : completion string :=
  let opts := match opts with VUndefined => VObj [] | _ => opts end in
  bindc (entries (attributes m)) (fun es =>
  bindc (process_attributes es (mkLocals [] [] VNull)) (fun l =>
  bindc (get (options m) "engine") (fun engine =>
  let engine := or_else engine (VStr "MergeTree()") in
  bindc (if truthy (primaryKey l)
         then Normal ("ORDER BY " ++ toString (primaryKey l))
         else
           bindc (get (options m) "orderBy") (fun ob =>
           if truthy ob
           then Normal ("ORDER BY " ++ toString ob)
           else Normal ("ORDER BY " ++ toString (first_key es))))
        (fun orderBy =>
  let sql := "CREATE TABLE" in
  bindc (get opts "ifNotExists") (fun ine =>
  let sql := if is_not_false ine then sql ++ " IF NOT EXISTS" else sql in
  let sql := sql ++ " " ++ toString (tableName m) ++ " (" ++ nl in
  let sql := sql ++ "  " ++ String.concat ("," ++ nl ++ "  ") (columns l)
                 ++ nl in
  let sql := sql ++ ") ENGINE = " ++ toString engine in
  let sql := if negb (String.eqb orderBy "")
             then sql ++ nl ++ orderBy else sql in
  bindc (get (options m) "settings") (fun settings =>
  if truthy settings then
    bindc (entries settings) (fun ses =>
    let settings :=
      String.concat ", "
        (map (fun kv => fst kv ++ " = " ++ toString (snd kv)) ses) in
    Normal (sql ++ nl ++ "SETTINGS " ++ settings))
  else Normal sql)))))).

End Schema.

(* ================================================================= *)
(** ** lib/Model.js *)

Module Model.
Import Js.
Open Scope prog_scope.

(** The properties an object spread copies: none for [null], [undefined] and
    the other primitives that have no own enumerable ones. *)
Definition spread (v : value) : list (string * value) :=
  match entries v with
  | Normal es => es
  | Throw _ => []
  end.

(** [v[0]] on what [findAll] can return. *)
Definition index0 (v : value) : completion value :=
  match v with
  | VArr xs => Normal (hd VUndefined xs)
  | VStr s => Normal (hd VUndefined (chars s))
  | _ => get v "0"
  end.

(** The calls [findAll] makes on its fresh builder. *)
Definition findAll_builder (m : Schema.model) (options : value)
  : QueryBuilder.method unit :=
  attrs <- lift (get options "attributes") ;;
  QueryBuilder.select (or_else attrs (VStr "*")) ;;;
  QueryBuilder.from (Schema.tableName m) ;;;
  w <- lift (get options "where") ;;
  (if truthy w then QueryBuilder.where_ w else ret tt) ;;;
  o <- lift (get options "orderBy") ;;
  (if truthy o then QueryBuilder.orderBy o VUndefined else ret tt) ;;;
  l <- lift (get options "limit") ;;
  (if truthy l then QueryBuilder.limit l else ret tt) ;;;
  f <- lift (get options "offset") ;;
  (if truthy f then QueryBuilder.offset f else ret tt).

(** [result.data] on what [execute] resolved with. *)
Definition data_of (r : Connection.response) : completion value :=
  match r with
  | Connection.Json v => get v "data"
  | Connection.Raw _ => Normal VUndefined
  end.

(** [findAll(options = {})]. *)
Definition findAll (d : Connection.driver) (m : Schema.model) (options : value)
  : prog Connection.state value :=
  let options := match options with VUndefined => VObj [] | _ => options end in
  match findAll_builder m options QueryBuilder.constructor with
  | (Throw e, _) => throw e
  | (Normal _, query) =>
      result <- QueryBuilder.execute d query ;;
      data <- lift (data_of result) ;;
      ret (or_else data (VArr []))
  end.

(** [findOne(options = {})]. *)
Definition findOne (d : Connection.driver) (m : Schema.model) (options : value)
  : prog Connection.state value :=
  let options := match options with VUndefined => VObj [] | _ => options end in
  results <- findAll d m (VObj (set_prop "limit" (VNum 1) (spread options))) ;;
  first <- lift (index0 results) ;;
  ret (or_else first VNull).

End Model.

(* ================================================================= *)
(** ** The clause grammar and the operator table of the specification *)

Module Grammar.
Import Js QueryBuilder.

(** The operator-to-SQL table for the comparison tags. *)
Definition comparison_table : list (string * string) :=
  [("gt", ">"); ("gte", ">="); ("lt", "<"); ("lte", "<=");
   ("ne", "!="); ("like", "LIKE")].

(** The operator-to-SQL table for the membership tags. *)
Definition membership_table : list (string * string) :=
  [("in", "IN"); ("notIn", "NOT IN")].

Fixpoint assoc (k : string) (t : list (string * string)) : option string :=
  match t with
  | [] => None
  | (k', x) :: rest => if String.eqb k k' then Some x else assoc k rest
  end.

(** The recognised operator tags. *)
Definition recognized (tag : string) : bool :=
  match assoc tag comparison_table, assoc tag membership_table with
  | None, None => false
  | _, _ => true
  end.

Definition is_membership (tag : string) : bool :=
  match assoc tag membership_table with Some _ => true | None => false end.

(** A scalar wrapped in single quotes, nothing escaped. *)
Definition quoted (v : value) : string := "'" ++ toString v ++ "'".

Definition quoted_list (xs : list value) : string :=
  "(" ++ String.concat ", " (map quoted xs) ++ ")".

Definition elements (v : value) : list value :=
  match v with VArr xs => xs | _ => [] end.

(** The fragment the table assigns to one entry of an OperatorMap. *)
Definition fragment (field : string) (entry : string * value) : string :=
  let (tag, v) := entry in
  match assoc tag comparison_table with
  | Some op => field ++ " " ++ op ++ " " ++ quoted v
  | None =>
      match assoc tag membership_table with
      | Some op => field ++ " " ++ op ++ " " ++ quoted_list (elements v)
      | None => ""
      end
  end.

(** An entry of an OperatorMap in the sense of the data model: a recognised
    tag, carrying a sequence when the tag is a membership test. *)
Definition operator_entry (entry : string * value) : Prop :=
  recognized (fst entry) = true /\
  (is_membership (fst entry) = true -> is_array (snd entry) = true).

(** A value that is neither an array nor an object. *)
Definition scalar (v : value) : bool :=
  match v with VArr _ | VObj _ => false | _ => true end.

Definition join_text (j : join_descriptor) : string :=
  " " ++ toString (j_type j) ++ " JOIN " ++ toString (j_table j)
      ++ " ON " ++ toString (j_condition j).

Definition select_from (q : query) : string :=
  "SELECT " ++ Js.join ", " (q_select q) ++ " FROM " ++ toString (q_from q).

Definition joins_text (js : list join_descriptor) : string :=
  fold_right (fun j rest => join_text j ++ rest) "" js.

Definition where_text (ws : list string) : string :=
  match ws with [] => "" | _ => " WHERE " ++ String.concat " AND " ws end.

Definition group_text (gs : list value) : string :=
  match gs with [] => "" | _ => " GROUP BY " ++ Js.join ", " gs end.

Definition having_text (hs : list string) : string :=
  match hs with [] => "" | _ => " HAVING " ++ String.concat " AND " hs end.

Definition order_text (os : list value) : string :=
  match os with [] => "" | _ => " ORDER BY " ++ Js.join ", " os end.

Definition limit_text (v : value) : string :=
  match v with VNull => "" | _ => " LIMIT " ++ toString v end.

Definition offset_text (v : value) : string :=
  match v with VNull => "" | _ => " OFFSET " ++ toString v end.

(** The clauses before and after the WHERE clause. *)
Definition before_where (q : query) : string :=
  select_from q ++ joins_text (q_joins q).

Definition after_where (q : query) : string :=
  group_text (q_groupBy q) ++ having_text (q_having q)
    ++ order_text (q_orderBy q) ++ limit_text (q_limit q)
    ++ offset_text (q_offset q).

(** The statement of the clause grammar. *)
Definition statement (q : query) : string :=
  before_where q ++ where_text (q_where q) ++ after_where q.

(** [needle] is a prefix of [hay]. *)
Fixpoint starts_with (needle hay : string) : bool :=
  match needle, hay with
  | EmptyString, _ => true
  | String _ _, EmptyString => false
  | String a n, String b h => Ascii.eqb a b && starts_with n h
  end.

(** [needle] is a substring of [hay]. *)
Fixpoint occurs (needle hay : string) : bool :=
  starts_with needle hay ||
  match hay with
  | EmptyString => false
  | String _ h => occurs needle h
  end.

Fixpoint has_char (c : ascii) (s : string) : bool :=
  match s with
  | EmptyString => false
  | String a rest => Ascii.eqb c a || has_char c rest
  end.

(** The texts the caller supplied that [build] copies into the statement. *)
Definition user_texts (q : query) : list string :=
  (map element_string (q_select q) ++ [toString (q_from q)]
   ++ flat_map (fun j => [toString (j_type j); toString (j_table j);
                          toString (j_condition j)]) (q_joins q)
   ++ q_where q ++ map element_string (q_groupBy q) ++ q_having q
   ++ map element_string (q_orderBy q)
   ++ (if is_null (q_limit q) then [] else [toString (q_limit q)])
   ++ (if is_null (q_offset q) then [] else [toString (q_offset q)]))%list.

(** The optional clauses of the grammar. *)
Inductive clause : Type :=
| Join | Where | GroupBy | Having | OrderBy | Limit | Offset.

(** The word that opens the clause. *)
Definition keyword (c : clause) : string :=
  match c with
  | Join => "JOIN"
  | Where => "WHERE"
  | GroupBy => "GROUP"
  | Having => "HAVING"
  | OrderBy => "ORDER"
  | Limit => "LIMIT"
  | Offset => "OFFSET"
  end.

(** The collection behind the clause is empty, or its value unset. *)
Definition omitted (c : clause) (q : query) : Prop :=
  match c with
  | Join => q_joins q = []
  | Where => q_where q = []
  | GroupBy => q_groupBy q = []
  | Having => q_having q = []
  | OrderBy => q_orderBy q = []
  | Limit => q_limit q = VNull
  | Offset => q_offset q = VNull
  end.

(** [needle] is not a substring of [hay]. *)
Definition free (needle hay : string) : Prop := occurs needle hay = false.

(** A clause text is empty or opens with a space. *)
Definition clause_shaped (needle t : string) : Prop :=
  t = "" \/ exists t', t = String " " t' /\ free needle t'.

(** Whatever its outcome, the method leaves the builder with its earlier
    conditions followed by new ones, and nothing else changed. *)
Definition appends_only (m : method unit) : Prop :=
  forall q, exists extra, snd (m q) = set_where (q_where q ++ extra) q.

(** The default of [orderBy]'s second parameter. *)
Definition direction_or_ASC (direction : value) : value :=
  match direction with VUndefined => VStr "ASC" | _ => direction end.

End Grammar.

(* ================================================================= *)
(** ** What the specification says of the adapter, the schema and the finders *)

Module Contract.
Import Js Schema.

(** [options = {}]: the default of an omitted argument. *)
Definition options_or_empty (options : value) : value :=
  match options with VUndefined => VObj [] | _ => options end.

(** The [primaryKey] flag of an attribute definition. *)
Definition flag (definition : value) : value :=
  match definition with
  | VObj props => lookup "primaryKey" props
  | _ => VUndefined
  end.

Definition flagged (attribute : string * value) : bool :=
  truthy (flag (snd attribute)).

(** The column the ORDER BY clause names, by precedence: an attribute
    flagged as primary key (the last one, should several be flagged), else
    the model's [orderBy] option, else the first attribute. *)
Definition order_key (attrs opts : list (string * value)) : string :=
  match filter flagged attrs with
  | pk :: pks => fst (last (pk :: pks) pk)
  | [] =>
      if truthy (lookup "orderBy" opts)
      then toString (lookup "orderBy" opts)
      else match attrs with
           | (first, _) :: _ => first
           | [] => "undefined"
           end
  end.

(** A definition in one of the two documented formats: a type string, or an
    object with a [type]. *)
Definition valid_definition (definition : value) : bool :=
  match definition with
  | VStr _ => true
  | VObj props => truthy (lookup "type" props)
  | _ => false
  end.

Definition valid_attribute (attribute : string * value) : Prop :=
  fst attribute <> "" /\ valid_definition (snd attribute) = true.

(** The engine the statement names. *)
Definition engine_of (opts : list (string * value)) : string :=
  toString (or_else (lookup "engine" opts) (VStr "MergeTree()")).

(** The SETTINGS clause, if any. *)
Definition settings_text (opts : list (string * value)) : string :=
  match entries (lookup "settings" opts) with
  | Normal ses =>
      if truthy (lookup "settings" opts)
      then nl ++ "SETTINGS "
              ++ String.concat ", "
                   (map (fun kv => fst kv ++ " = " ++ toString (snd kv)) ses)
      else ""
  | Throw _ => ""
  end.

(** The primary key local after the attribute loop. *)
Definition last_flagged (attrs : list (string * value)) (init : value)
  : value :=
  fold_left (fun pk a => if flagged a then VStr (fst a) else pk) attrs init.

(** The options [findOne] hands to [findAll]: [{...options, limit: 1}]. *)
Definition with_limit_1 (options : value) : value :=
  VObj (set_prop "limit" (VNum 1) (Model.spread options)).


End Contract.

(* ================================================================= *)
(** ** lib/DataTypes.js *)

Module DataTypes.
Import Js.

Definition UInt8 : string := "UInt8".
Definition UInt16 : string := "UInt16".
Definition UInt32 : string := "UInt32".
Definition UInt64 : string := "UInt64".
Definition Int8 : string := "Int8".
Definition Int16 : string := "Int16".
Definition Int32 : string := "Int32".
Definition Int64 : string := "Int64".
Definition Float32 : string := "Float32".
Definition Float64 : string := "Float64".
Definition String_ : string := "String".
Definition Date : string := "Date".
Definition DateTime : string := "DateTime".
Definition Boolean : string := "UInt8".
Definition UUID : string := "UUID".
Definition JSON : string := "JSON".

Definition Decimal (precision scale : value) : string :=
  "Decimal(" ++ toString precision ++ ", " ++ toString scale ++ ")".

Definition FixedString (length : value) : string :=
  "FixedString(" ++ toString length ++ ")".

(** [DateTime64(precision = 3)]. *)
Definition DateTime64 (precision : value) : string :=
  let precision :=
    match precision with VUndefined => VNum 3 | _ => precision end in
  "DateTime64(" ++ toString precision ++ ")".

Definition Array (type : value) : string := "Array(" ++ toString type ++ ")".

Definition Nullable (type : value) : string :=
  "Nullable(" ++ toString type ++ ")".


(** The body shared by [Enum8] and [Enum16]. *)
Definition enum_members (values : value) : completion string :=
  match entries values with
  | Throw e => Throw e
  | Normal es =>
      Normal (String.concat ", "
                (map (fun kv => "'" ++ fst kv ++ "' = " ++ toString (snd kv))
                     es))
  end.

Definition Enum8 (values : value) : completion string :=
  match enum_members values with
  | Throw e => Throw e
  | Normal members => Normal ("Enum8(" ++ members ++ ")")
  end.

Definition Enum16 (values : value) : completion string :=
  match enum_members values with
  | Throw e => Throw e
  | Normal members => Normal ("Enum16(" ++ members ++ ")")
  end.

(** [list.includes(type)] for a list of strings. *)
Definition includes (list : list string) (type : value) : bool :=
  match type with
  | VStr s => existsb (String.eqb s) list
  | _ => false
  end.

(** [type.startsWith(prefix)]: only a string has the method. *)
Definition startsWith (type : value) (prefix : string) : completion bool :=
  match type with
  | VStr s => Normal (Grammar.starts_with prefix s)
  | VUndefined => Throw (TypeError "Cannot read properties of undefined")
  | VNull => Throw (TypeError "Cannot read properties of null")
  | _ => Throw (TypeError "type.startsWith is not a function")
  end.

Definition numericTypes : list string :=
  ["UInt8"; "UInt16"; "UInt32"; "UInt64"; "Int8"; "Int16"; "Int32"; "Int64";
   "Float32"; "Float64"].

Definition isNumeric (type : value) : completion bool :=
  if includes numericTypes type then Normal true
  else startsWith type "Decimal".

Definition isString (type : value) : completion bool :=
  if match type with VStr s => String.eqb s "String" | _ => false end
  then Normal true
  else startsWith type "FixedString".

Definition isDate (type : value) : completion bool :=
  if includes ["Date"; "DateTime"] type then Normal true
  else startsWith type "DateTime64".

Definition isArray (type : value) : completion bool :=
  startsWith type "Array".

Definition isNullable (type : value) : completion bool :=
  startsWith type "Nullable".

End DataTypes.

(* ================================================================= *)
(** ** lib/Connection.js: the constructor, [authenticate] and [insert] *)

Module Adapter.
Import Js Connection.
Open Scope prog_scope.

(** [Object.assign(target, source)] on property lists, which is also how the
    properties of a spread land in an object literal. *)
Definition assign (target source : list (string * value))
  : list (string * value) :=
  fold_left (fun acc kv => set_prop (fst kv) (snd kv) acc) source target.

(** [new Connection(config)]. *)
Definition constructor (config : value) : completion state :=
  Schema.bindc (get config "host") (fun host =>
  Schema.bindc (get config "port") (fun port =>
  Schema.bindc (get config "username") (fun username =>
  Schema.bindc (get config "password") (fun password =>
  Schema.bindc (get config "database") (fun database =>
  Normal (mkState
    (VObj (assign
             [("host", or_else host (VStr "localhost"));
              ("port", or_else port (VNum 8123));
              ("username", or_else username (VStr "default"));
              ("password", or_else password (VStr ""));
              ("database", or_else database (VStr "default"))]
             (Model.spread config)))
    false false [])))))).

(** [authenticate()].  As in [query], the promise of [result.json()] leaves
    the [try] block without being awaited. *)
Definition authenticate (d : driver) : prog state value :=
  promise <-
    try_catch
      (c <- connect d ;;
       (if c then ret tt
        else throw (TypeError "Cannot read properties of null")) ;;;
       result <- call_client d
                   (mkRequest (VStr "SELECT 1 as test") (VStr "JSON")
                              VUndefined) ;;
       ret (json result))
      (fun e => throw (Error ("Authentication failed: " ++ message e))) ;;
  lift promise.

(** The argument of the external client's [insert]. *)
Record insertion : Type := mkInsertion {
  i_table : value;
  i_values : list value;
  i_format : value
}.

(** [Array.isArray(data) ? data : [data]]. *)
Definition as_rows (data : value) : list value :=
  match data with
  | VArr xs => xs
  | _ => [data]
  end.

(** [insert(table, data, options = {})], over the external client's
    [insert], which resolves with an acknowledgement or rejects. *)
Definition insert (d : driver) (client_insert : insertion -> completion value)
  (table data options : value) : prog state value :=
  let options := match options with VUndefined => VObj [] | _ => options end in
  try_catch
    (c <- connect d ;;
     (if c then ret tt
      else throw (TypeError "Cannot read properties of null")) ;;;
     format <- lift (get options "format") ;;
     lift (client_insert
             (mkInsertion table (as_rows data)
                          (or_else format (VStr "JSON")))))
    (fun e => throw (Error ("Insert failed: " ++ message e))).

End Adapter.

(* ================================================================= *)
(** ** lib/Schema.js: the statements sent to the database *)

Module SchemaOps.
Import Js Schema.
Open Scope prog_scope.

(** [createTable(model, options = {})].  The message written to the console
    on success is not part of the state. *)
Definition createTable (d : Connection.driver) (m : model) (options : value)
  : prog Connection.state unit :=
  let options := match options with VUndefined => VObj [] | _ => options end in
  sql <- lift (generateCreateTableSQL m options) ;;
  try_catch
    (Connection.query d (VStr sql) VUndefined ;;; ret tt)
    (fun error =>
       if negb (Grammar.occurs "already exists" (message error))
       then throw error
       else
         force <- lift (get options "force") ;;
         if negb (truthy force) then throw error else ret tt).

(** [dropTable(tableName, options = {})]. *)
Definition dropTable (d : Connection.driver) (tableName options : value)
  : prog Connection.state unit :=
  let options := match options with VUndefined => VObj [] | _ => options end in
  ifExists <- lift (get options "ifExists") ;;
  let sql := "DROP TABLE" in
  let sql := if is_not_false ifExists then sql ++ " IF EXISTS" else sql in
  let sql := sql ++ " " ++ toString tableName in
  try_catch
    (Connection.query d (VStr sql) VUndefined ;;; ret tt)
    (fun error =>
       throw (Error ("Failed to drop table " ++ toString tableName ++ ": "
                       ++ message error))).

(** [describeTable(tableName)]. *)
Definition describeTable (d : Connection.driver) (tableName : value)
  : prog Connection.state value :=
  result <- Connection.query d (VStr ("DESCRIBE TABLE " ++ toString tableName))
                             VUndefined ;;
  data <- lift (Model.data_of result) ;;
  ret (or_else data (VArr [])).

(** [addColumn(tableName, columnName, definition)]. *)
Definition addColumn (d : Connection.driver) (tableName : value)
  (columnName : string) (definition : value) : prog Connection.state unit :=
  columnDef <- lift (generateColumnDefinition columnName definition) ;;
  let sql := "ALTER TABLE " ++ toString tableName ++ " ADD COLUMN "
                            ++ columnDef in
  try_catch
    (Connection.query d (VStr sql) VUndefined ;;; ret tt)
    (fun error => throw (Error ("Failed to add column: " ++ message error))).

(** [dropColumn(tableName, columnName)]. *)
Definition dropColumn (d : Connection.driver) (tableName columnName : value)
  : prog Connection.state unit :=
  let sql := "ALTER TABLE " ++ toString tableName ++ " DROP COLUMN "
                            ++ toString columnName in
  try_catch
    (Connection.query d (VStr sql) VUndefined ;;; ret tt)
    (fun error => throw (Error ("Failed to drop column: " ++ message error))).

End SchemaOps.

(* ================================================================= *)
(** ** lib/Model.js: the remaining methods *)

Module ModelOps.
Import Js.
Open Scope prog_scope.

(** One entry of [this.associations]. *)
Record association : Type := mkAssociation {
  a_type : value;
  a_model : Schema.model;
  a_options : value
}.

(** A [Map] with string keys: [set] keeps the place of a key it already
    holds and puts a new key last. *)
Fixpoint map_set {V} (k : string) (v : V) (m : list (string * V))
  : list (string * V) :=
  match m with
  | [] => [(k, v)]
  | (k', v') :: rest =>
      if String.eqb k k' then (k', v) :: rest
      else (k', v') :: map_set k v rest
  end.

Fixpoint map_get {V} (k : string) (m : list (string * V)) : option V :=
  match m with
  | [] => None
  | (k', v) :: rest => if String.eqb k k' then Some v else map_get k rest
  end.

(** [associate(type, model, options = {})] on [this.associations]. *)
Definition associate (type : value) (model : Schema.model) (options : value)
  (associations : list (string * association))
  : list (string * association) :=
  let options := match options with VUndefined => VObj [] | _ => options end in
  map_set (Schema.name model) (mkAssociation type model options) associations.

Definition hasMany (model : Schema.model) (options : value) :=
  associate (VStr "hasMany") model options.

Definition belongsTo (model : Schema.model) (options : value) :=
  associate (VStr "belongsTo") model options.

Definition hasOne (model : Schema.model) (options : value) :=
  associate (VStr "hasOne") model options.

(** The loop of [getPrimaryKey]. *)
Fixpoint first_primaryKey (es : list (string * value)) : completion string :=
  match es with
  | [] => Normal "id"
  | (field, definition) :: rest =>
      match get definition "primaryKey" with
      | Throw e => Throw e
      | Normal pk => if truthy pk then Normal field else first_primaryKey rest
      end
  end.

(** [getPrimaryKey()]. *)
Definition getPrimaryKey (m : Schema.model) : completion string :=
  match entries (Schema.attributes m) with
  | Throw e => Throw e
  | Normal es => first_primaryKey es
  end.

(** [findByPk(id, options = {})]. *)
Definition findByPk (d : Connection.driver) (m : Schema.model)
  (id options : value) : prog Connection.state value :=
  let options := match options with VUndefined => VObj [] | _ => options end in
  primaryKey <- lift (getPrimaryKey m) ;;
  Model.findOne d m
    (VObj (set_prop "where" (VObj [(primaryKey, id)]) (Model.spread options))).

(** The calls [count] makes on its fresh builder. *)
Definition count_builder (m : Schema.model) (options : value)
  : QueryBuilder.method unit :=
  QueryBuilder.select (VStr ("COUNT(" ++ "*) as count")) ;;;
  QueryBuilder.from (Schema.tableName m) ;;;
  w <- lift (get options "where") ;;
  (if truthy w then QueryBuilder.where_ w else ret tt).

(** [row?.count]. *)
Definition count_of (row : value) : completion value :=
  match row with
  | VUndefined | VNull => Normal VUndefined
  | _ => get row "count"
  end.

(** [count(options = {})]. *)
Definition count (d : Connection.driver) (m : Schema.model) (options : value)
  : prog Connection.state value :=
  let options := match options with VUndefined => VObj [] | _ => options end in
  match count_builder m options QueryBuilder.constructor with
  | (Throw e, _) => throw e
  | (Normal _, query) =>
      result <- QueryBuilder.execute d query ;;
      data <- lift (Model.data_of result) ;;
      row <- lift (Model.index0 data) ;;
      n <- lift (count_of row) ;;
      ret (or_else n (VNum 0))
  end.

Section Lowercase.

(** [String.prototype.toLowerCase], which the model takes from the
    runtime. *)
Variable toLowerCase : string -> string.

(** [name.toLowerCase()]. *)
Definition lower (name : value) : completion value :=
  match name with
  | VStr s => Normal (VStr (toLowerCase s))
  | VUndefined => Throw (TypeError "Cannot read properties of undefined")
  | VNull => Throw (TypeError "Cannot read properties of null")
  | _ => Throw (TypeError "name.toLowerCase is not a function")
  end.

(** [new Model(name, attributes, options = {})], as the object it builds;
    the empty [Map] of associations is shown as an empty object. *)
Definition construct (name attributes options : value) : completion value :=
  let options := match options with VUndefined => VObj [] | _ => options end in
  Schema.bindc (get options "tableName") (fun tableName =>
  Schema.bindc (if truthy tableName then Normal tableName else lower name)
    (fun tableName =>
  Schema.bindc (get options "connection") (fun connection =>
  Schema.bindc (get options "orm") (fun orm =>
  Normal (VObj [("name", name); ("tableName", tableName);
                ("attributes", attributes); ("options", options);
                ("connection", connection); ("orm", orm);
                ("associations", VObj [])]))))).

(** [static build(values = {})]: [new this()] passes no argument. *)
Definition build (values : value) : completion value :=
  let values := match values with VUndefined => VObj [] | _ => values end in
  Schema.bindc (construct VUndefined VUndefined VUndefined) (fun instance =>
  match instance with
  | VObj props => Normal (VObj (Adapter.assign props (Model.spread values)))
  | _ => Normal instance
  end).


End Lowercase.

(** [bulkCreate(records, options = {})]. *)
Definition bulkCreate (d : Connection.driver)
  (client_insert : Adapter.insertion -> completion value)
  (m : Schema.model) (records options : value) : prog Connection.state value :=
  let options := match options with VUndefined => VObj [] | _ => options end in
  try_catch
    (Adapter.insert d client_insert (Schema.tableName m) records options ;;;
     ret records)
    (fun e =>
       throw (Error ("Failed to bulk create " ++ Schema.name m ++ ": "
                       ++ message e))).

End ModelOps.

(* ================================================================= *)
(** ** lib/Relations.js: join queries *)

Module Relations.
Import Js ModelOps.
Open Scope prog_scope.

Section Lowercase.

Variable toLowerCase : string -> string.

(** [type === tag]. *)
Definition is_type (type : value) (tag : string) : bool :=
  match type with VStr s => String.eqb s tag | _ => false end.

(** [buildJoinCondition(model, association, include)]. *)
Definition buildJoinCondition (m : Schema.model) (a : association)
  : completion string :=
  if is_type (a_type a) "hasMany" || is_type (a_type a) "hasOne" then
    Schema.bindc (get (a_options a) "foreignKey") (fun fk =>
    let foreignKey :=
      or_else fk (VStr (toLowerCase (Schema.name m) ++ "_id")) in
    Schema.bindc (getPrimaryKey m) (fun primaryKey =>
    Normal (toString (Schema.tableName m) ++ "." ++ primaryKey ++ " = "
              ++ toString (Schema.tableName (a_model a)) ++ "."
              ++ toString foreignKey)))
  else if is_type (a_type a) "belongsTo" then
    Schema.bindc (get (a_options a) "foreignKey") (fun fk =>
    let belongsToForeignKey :=
      or_else fk (VStr (toLowerCase (Schema.name (a_model a)) ++ "_id")) in
    Schema.bindc (getPrimaryKey (a_model a)) (fun belongsToPrimaryKey =>
    Normal (toString (Schema.tableName m) ++ "."
              ++ toString belongsToForeignKey ++ " = "
              ++ toString (Schema.tableName (a_model a)) ++ "."
              ++ belongsToPrimaryKey)))
  else Throw (Error ("Unknown association type: " ++ toString (a_type a))).

(** What [for (const include of includes)] iterates over. *)
Definition iterate (includes : value) : completion (list value) :=
  match includes with
  | VArr xs => Normal xs
  | VStr s => Normal (chars s)
  | _ => Throw (TypeError "includes is not iterable")
  end.

(** [model.associations.get(key)]: the keys are model names. *)
Definition find_association (associations : list (string * association))
  (key : value) : option association :=
  match key with
  | VStr k => map_get k associations
  | _ => None
  end.

(** The loop of [createJoinQuery]. *)
Fixpoint add_includes (m : Schema.model)
  (associations : list (string * association)) (includes : list value)
  : QueryBuilder.method unit :=
  match includes with
  | [] => ret tt
  | include :: rest =>
      key <- lift (get include "model") ;;
      match find_association associations key with
      | None =>
          throw (Error ("Association " ++ toString key ++ " not found on "
                          ++ Schema.name m))
      | Some a =>
          joinCondition <- lift (buildJoinCondition m a) ;;
          QueryBuilder.leftJoin (Schema.tableName (a_model a))
                                (VStr joinCondition) ;;;
          add_includes m associations rest
      end
  end.

(** [createJoinQuery(model, includes)]: the builder it returns. *)
Definition createJoinQuery (m : Schema.model)
  (associations : list (string * association)) (includes : value)
  : completion QueryBuilder.query :=
  match (QueryBuilder.select (VStr "*") ;;;
         QueryBuilder.from (Schema.tableName m) ;;;
         xs <- lift (iterate includes) ;;
         add_includes m associations xs) QueryBuilder.constructor with
  | (Normal _, query) => Normal query
  | (Throw e, _) => Throw e
  end.

End Lowercase.

End Relations.

(* ================================================================= *)
(** ** index.js: the model registry and [sync] *)

Module Orm.
Import Js ModelOps.
Open Scope prog_scope.

(** The references [define] stores under [connection] and [orm]: the model
    only passes them on. *)
Definition reference : value := VObj [].

Section Lowercase.

Variable toLowerCase : string -> string.

(** [define(modelName, attributes, options = {})] on [this.models]: the
    model it returns and the registry it leaves. *)
Definition define (modelName : string) (attributes options : value)
  (models : list (string * Schema.model))
  : Schema.model * list (string * Schema.model) :=
  let options := match options with VUndefined => VObj [] | _ => options end in
  let props :=
    set_prop "orm" reference
      (set_prop "connection" reference (Model.spread options)) in
  let model :=
    Schema.mkModel modelName
      (or_else (lookup "tableName" props) (VStr (toLowerCase modelName)))
      attributes (VObj props) in
  (model, map_set modelName model models).

End Lowercase.

(** [model(modelName)]. *)
Definition model (modelName : string) (models : list (string * Schema.model))
  : option Schema.model :=
  map_get modelName models.

(** [getModels()]. *)
Definition getModels (models : list (string * Schema.model))
  : list Schema.model :=
  map snd models.

(** The loop of [sync]. *)
Fixpoint sync_models (d : Connection.driver) (ms : list Schema.model)
  (options : value) : prog Connection.state unit :=
  match ms with
  | [] => ret tt
  | m :: rest =>
      SchemaOps.createTable d m options ;;; sync_models d rest options
  end.

(** [sync(options = {})]. *)
Definition sync (d : Connection.driver) (models : list (string * Schema.model))
  (options : value) : prog Connection.state unit :=
  let options := match options with VUndefined => VObj [] | _ => options end in
  sync_models d (getModels models) options.

End Orm.

(* ================================================================= *)
(** ** Vocabulary for the properties of the remaining methods *)

Module Traffic.
Import Js Connection.

(** The connection holds a client. *)
Definition connected (s : state) : Prop :=
  isConnected s = true /\ client s = true.

(** The state after the external client has received one more request. *)
Definition sent_one (s : state) (req : request) : state :=
  mkState (config s) (client s) (isConnected s) (sent s ++ [req]).

(** The request [query] makes when called without options. *)
Definition plain (sql : string) : request :=
  mkRequest (VStr sql) (VStr "JSON") (VObj []).

(** The external client accepts every statement and answers with [rows]. *)
Definition answers (d : driver) (rows : value) : Prop :=
  forall history req,
    client_query d history req = Normal (mkResultSet (Normal rows)).

(** The method completes with [outcome] after pushing [extra], on every
    builder. *)
Definition pushes (m : QueryBuilder.method unit) (outcome : completion unit)
  (extra : list string) : Prop :=
  forall q, m q = (outcome,
                   QueryBuilder.set_where (QueryBuilder.q_where q ++ extra) q).

End Traffic.

(* ================================================================= *)
(** ** Attribute definitions without their [index] flag *)

Module Defaults.
Import Js.

(** The properties other than [k0]. *)
Definition without (k0 : string) (props : list (string * value))
  : list (string * value) :=
  filter (fun kv => negb (String.eqb (fst kv) k0)) props.

Definition without_index (definition : value) : value :=
  match definition with
  | VObj props => VObj (without "index" props)
  | _ => definition
  end.

Definition strip_index (attribute : string * value) : string * value :=
  (fst attribute, without_index (snd attribute)).

End Defaults.

(* ================================================================= *)
(** ** Properties of the query builder *)

Import Js QueryBuilder Grammar Contract.
Open Scope prog_scope.

(** *** Strings *)

Lemma append_nil_r (s : string) : s ++ "" = s.
Proof. induction s as [|c s IH]; simpl; [reflexivity | now rewrite IH]. Qed.

Lemma append_assoc (a b c : string) : (a ++ b) ++ c = a ++ (b ++ c).
Proof. induction a as [|x a IH]; simpl; [reflexivity | now rewrite IH]. Qed.

(** *** [build] and the clause grammar *)

Lemma add_joins_text (js : list join_descriptor) (sql : string) :
  add_joins sql js = sql ++ Grammar.joins_text js.
Proof.
  revert sql; induction js as [|j js IH]; intro sql.
  - simpl. now rewrite append_nil_r.
  - cbn [add_joins Grammar.joins_text fold_right]. rewrite IH.
    unfold Grammar.join_text. now rewrite !append_assoc.
Qed.

Lemma step_nonempty {A} (l : list A) (sql text : string) :
  (if (0 <? List.length l)%nat then sql ++ text else sql)
  = sql ++ match l with [] => "" | _ => text end.
Proof. destruct l; simpl; [now rewrite append_nil_r | reflexivity]. Qed.

Lemma step_nonnull (v : value) (sql text : string) :
  (if negb (is_null v) then sql ++ text else sql)
  = sql ++ match v with VNull => "" | _ => text end.
Proof. destruct v; simpl; try reflexivity. now rewrite append_nil_r. Qed.

(** [build] renders the statement of the clause grammar and leaves the
    builder as it was. *)
Lemma build_statement (q : query) :
  build q = (Normal (Grammar.statement q), q).
Proof.
  unfold build, Grammar.statement, Grammar.before_where, Grammar.after_where.
  rewrite add_joins_text. f_equal. f_equal.
  cbv zeta.
  rewrite !step_nonnull, !step_nonempty.
  unfold Grammar.select_from. rewrite !append_assoc.
  reflexivity.
Qed.

(** The scenarios of the specification, run on the builder. *)
Example scenario_filtered_sorted_limited :
  fst ((select (VArr [VStr "name"; VStr "email"]) ;;;
        from (VStr "users") ;;;
        where_ (VObj [("age", VObj [("gte", VNum 18)])]) ;;;
        orderBy (VStr "name") (VStr "ASC") ;;;
        limit (VNum 10) ;;;
        build) constructor)
  = Normal "SELECT name, email FROM users WHERE age >= '18' ORDER BY name ASC LIMIT 10".
Proof. reflexivity. Qed.

Example scenario_left_join :
  fst ((select (VStr "*") ;;;
        from (VStr "users u") ;;;
        leftJoin (VStr "posts p") (VStr "u.id = p.user_id") ;;;
        build) constructor)
  = Normal "SELECT * FROM users u LEFT JOIN posts p ON u.id = p.user_id".
Proof. reflexivity. Qed.

(** *** Updating the WHERE list *)

Lemma q_where_set_where (ws : list string) (q : query) :
  q_where (set_where ws q) = ws.
Proof. reflexivity. Qed.

Lemma set_where_twice (ws1 ws2 : list string) (q : query) :
  set_where ws2 (set_where ws1 q) = set_where ws2 q.
Proof. reflexivity. Qed.

Lemma set_where_same (q : query) : set_where (q_where q) q = q.
Proof. now destruct q. Qed.

Lemma push_where_eq (s : string) (q : query) :
  push_where s q = (Normal tt, set_where (q_where q ++ [s]) q).
Proof. reflexivity. Qed.

(** A loop whose body pushes one fragment per entry pushes them all, in the
    order of the entries. *)
Lemma for_entries_push (body : string -> value -> method unit)
  (g : string * value -> string) (es : list (string * value)) :
  (forall k v q, In (k, v) es ->
     body k v q = (Normal tt, set_where (q_where q ++ [g (k, v)]) q)) ->
  forall q,
    for_entries body es q
    = (Normal tt, set_where (q_where q ++ map g es) q).
Proof.
  induction es as [|[k v] es IH]; intros Hbody q.
  - simpl. unfold ret. now rewrite app_nil_r, set_where_same.
  - cbn [for_entries]. unfold bind.
    rewrite (Hbody k v q (or_introl eq_refl)).
    rewrite IH by (intros; apply Hbody; now right).
    rewrite q_where_set_where, set_where_twice, <- app_assoc.
    reflexivity.
Qed.

(** *** The [switch] of [handleComplexCondition] *)

Ltac split_tag tag :=
  repeat match goal with
         | |- context [String.eqb tag ?lit] =>
             destruct (String.eqb_spec tag lit); [subst tag | ]
         | H : context [String.eqb tag ?lit] |- _ =>
             destruct (String.eqb_spec tag lit); [subst tag | ]
         end.

Lemma handle_entry_recognized (field tag : string) (v : value) (q : query) :
  Grammar.operator_entry (tag, v) ->
  handle_entry field tag v q
  = (Normal tt, set_where (q_where q ++ [Grammar.fragment field (tag, v)]) q).
Proof.
  intros [Hrec Hmem]; cbn [fst snd] in *.
  unfold Grammar.recognized, Grammar.is_membership in *.
  unfold handle_entry, Grammar.fragment.
  cbn [Grammar.assoc Grammar.comparison_table Grammar.membership_table] in *.
  split_tag tag; try discriminate; try reflexivity;
    (destruct v; try (specialize (Hmem eq_refl); discriminate);
     reflexivity).
Qed.

Lemma handle_entry_unrecognized (field tag : string) (v : value) (q : query) :
  Grammar.recognized tag = false ->
  handle_entry field tag v q = (Normal tt, q).
Proof.
  unfold Grammar.recognized, handle_entry.
  cbn [Grammar.assoc Grammar.comparison_table Grammar.membership_table].
  intros Hrec. split_tag tag; try discriminate. reflexivity.
Qed.

Lemma bind_ret_unit {S} (m : prog S unit) (s : S) :
  bind m (fun _ => ret tt) s = m s.
Proof.
  unfold bind, ret. destruct (m s) as [[[]|e] s']; reflexivity.
Qed.

(** [where] on a FilterSpec with a single field runs the loop body once. *)
Lemma where_single (f : string) (v : value) (q : query) :
  where_ (VObj [(f, v)]) q = where_entry f v q.
Proof.
  unfold where_. cbn [entries]. unfold bind at 1, lift.
  cbn [for_entries]. apply bind_ret_unit.
Qed.

Lemma handleComplexCondition_entries (f : string)
  (es : list (string * value)) (q : query) :
  handleComplexCondition f (VObj es) q = for_entries (handle_entry f) es q.
Proof. reflexivity. Qed.

(** An entry whose body does nothing can be removed from the loop. *)
Lemma for_entries_skip (body : string -> value -> method unit)
  (pre post : list (string * value)) (k : string) (v : value) :
  (forall q, body k v q = (Normal tt, q)) ->
  forall q,
    for_entries body (pre ++ (k, v) :: post) q
    = for_entries body (pre ++ post) q.
Proof.
  intros Hskip. induction pre as [|[k' v'] pre IH]; intro q.
  - cbn [app for_entries]. unfold bind. now rewrite Hskip.
  - cbn [app for_entries]. unfold bind.
    destruct (body k' v' q) as [[[]|e] q1]; [apply IH | reflexivity].
Qed.

(** The loop of [handleComplexCondition] sees only the recognised entries. *)
Lemma for_entries_recognized (f : string) (es : list (string * value))
  (q : query) :
  for_entries (handle_entry f) es q
  = for_entries (handle_entry f)
      (filter (fun e => Grammar.recognized (fst e)) es) q.
Proof.
  revert q; induction es as [|[k v] es IH]; intro q; [reflexivity|].
  cbn [filter fst]. destruct (Grammar.recognized k) eqn:Hk.
  - cbn [for_entries]. unfold bind.
    destruct (handle_entry f k v q) as [[[]|e] q1]; [apply IH | reflexivity].
  - cbn [for_entries]. unfold bind.
    rewrite handle_entry_unrecognized by assumption. apply IH.
Qed.

(** C1.  For a field [f] and an OperatorMap whose entries carry recognised
    tags (with a sequence under [in] and [notIn]), [where({f: map})] appends
    one fragment per entry, in the order of the entries, each rendered by the
    operator table; [build] joins the accumulated fragments with [" AND "]
    behind [" WHERE "]; and [where({age: {gte: 18, lte: 65}})] on a builder
    without earlier conditions contributes
    [age >= '18' AND age <= '65']. *)
Theorem where_operator_map (f : string) (ops : list (string * value))
  (q : query) :
  Forall Grammar.operator_entry ops ->
  where_ (VObj [(f, VObj ops)]) q
  = (Normal tt,
     set_where (q_where q ++ map (Grammar.fragment f) ops) q)
  /\ (forall q', q_where q' <> [] ->
        fst (build q')
        = Normal (Grammar.before_where q' ++ " WHERE "
                    ++ String.concat " AND " (q_where q')
                    ++ Grammar.after_where q'))
  /\ (q_where q = [] ->
        fst (build (snd (where_
               (VObj [("age", VObj [("gte", VNum 18); ("lte", VNum 65)])])
               q)))
        = Normal (Grammar.before_where q
                    ++ " WHERE age >= '18' AND age <= '65'"
                    ++ Grammar.after_where q)).
Proof.
  intros Hwf. split; [|split].
  - rewrite where_single. cbn [where_entry].
    rewrite handleComplexCondition_entries.
    apply for_entries_push. intros k v q0 Hin.
    apply handle_entry_recognized.
    rewrite Forall_forall in Hwf. exact (Hwf _ Hin).
  - intros q' Hne. rewrite build_statement. cbn [fst].
    unfold Grammar.statement, Grammar.where_text.
    destruct (q_where q') as [|w ws]; [congruence|].
    now rewrite !append_assoc.
  - intros Hempty. rewrite build_statement. cbn [fst].
    rewrite where_single. cbn [where_entry].
    rewrite handleComplexCondition_entries.
    cbn [for_entries]. unfold bind.
    rewrite !handle_entry_recognized
      by (split; [reflexivity | discriminate]).
    cbn [ret snd]. rewrite !q_where_set_where, !set_where_twice, Hempty.
    reflexivity.
Qed.

Lemma where_operator_map_witness :
  where_ (VObj [("age", VObj [("gte", VNum 18); ("in", VArr [VNum 1; VNum 2])])])
         constructor
  = (Normal tt,
     set_where ["age >= '18'"; "age IN ('1', '2')"] constructor).
Proof.
  apply (where_operator_map "age"
           [("gte", VNum 18); ("in", VArr [VNum 1; VNum 2])] constructor).
  repeat constructor; discriminate.
Defined.



(** C5.  An OperatorMap entry whose tag is none of [gt], [gte], [lt], [lte],
    [ne], [like], [in], [notIn] makes [where] push nothing and throw nothing:
    alone in its map it leaves the builder as it was, and among other
    entries it can be taken out of the map without changing what [where]
    does, so the recognised entries are emitted as without it. *)
Theorem unrecognized_operator_dropped (f tag : string) (v : value)
  (q : query) :
  Grammar.recognized tag = false ->
  where_ (VObj [(f, VObj [(tag, v)])]) q = (Normal tt, q)
  /\ (forall pre post,
        where_ (VObj [(f, VObj (pre ++ (tag, v) :: post))]) q
        = where_ (VObj [(f, VObj (pre ++ post))]) q)
  /\ (forall ops,
        where_ (VObj [(f, VObj ops)]) q
        = where_ (VObj [(f, VObj (filter (fun e => Grammar.recognized (fst e))
                                     ops))]) q).
Proof.
  intros Hun. split; [|split].
  - rewrite where_single. cbn [where_entry].
    rewrite handleComplexCondition_entries. cbn [for_entries].
    rewrite bind_ret_unit. now apply handle_entry_unrecognized.
  - intros pre post. rewrite !where_single. cbn [where_entry].
    rewrite !handleComplexCondition_entries.
    apply for_entries_skip. intro q0. now apply handle_entry_unrecognized.
  - intros es. rewrite !where_single. cbn [where_entry].
    rewrite !handleComplexCondition_entries. apply for_entries_recognized.
Qed.

Lemma unrecognized_operator_dropped_witness :
  where_ (VObj [("age", VObj [("gte", VNum 18); ("between", VNum 3);
                              ("lte", VNum 65)])]) constructor
  = (Normal tt, set_where ["age >= '18'"; "age <= '65'"] constructor).
Proof.
  destruct (unrecognized_operator_dropped "age" "between" (VNum 3)
              constructor eq_refl) as [_ [Hskip _]].
  exact (eq_trans (Hskip [("gte", VNum 18)] [("lte", VNum 65)]) eq_refl).
Defined.

(** *** Methods that only ever extend the WHERE list *)


Lemma appends_only_ret : appends_only (ret tt).
Proof.
  intro q. exists []. cbn. now rewrite app_nil_r, set_where_same.
Qed.

Lemma appends_only_throw (e : error) : appends_only (throw e).
Proof.
  intro q. exists []. cbn. now rewrite app_nil_r, set_where_same.
Qed.

Lemma appends_only_push (s : string) : appends_only (push_where s).
Proof. intro q. now exists [s]. Qed.

Lemma appends_only_bind (m k : method unit) :
  appends_only m -> appends_only k -> appends_only (m ;;; k).
Proof.
  intros Hm Hk q. unfold bind.
  destruct (Hm q) as [x1 H1]. destruct (m q) as [[[]|e] q1]; cbn [snd] in *.
  - destruct (Hk q1) as [x2 H2]. exists (x1 ++ x2)%list.
    rewrite H2, H1, q_where_set_where, set_where_twice.
    now rewrite app_assoc.
  - now exists x1.
Qed.

Lemma appends_only_for_entries (body : string -> value -> method unit)
  (es : list (string * value)) :
  (forall k v, appends_only (body k v)) ->
  appends_only (for_entries body es).
Proof.
  intros Hbody. induction es as [|[k v] es IH]; cbn [for_entries].
  - apply appends_only_ret.
  - now apply appends_only_bind.
Qed.

Lemma appends_only_quote_list (v : value) (k : string -> method unit) :
  (forall l, appends_only (k l)) ->
  appends_only (l <- lift (quote_list v) ;; k l).
Proof.
  intros Hk q. unfold bind, lift.
  destruct (quote_list v) as [l|e]; [apply Hk | apply (appends_only_throw e)].
Qed.

Lemma appends_only_handle_entry (f tag : string) (v : value) :
  appends_only (handle_entry f tag v).
Proof.
  unfold handle_entry.
  repeat match goal with
         | |- context [if ?b then _ else _] => destruct b
         end;
    first [ apply appends_only_push
          | apply appends_only_ret
          | apply appends_only_quote_list; intro; apply appends_only_push ].
Qed.

Lemma appends_only_where_entry (f : string) (v : value) :
  appends_only (where_entry f v).
Proof.
  destruct v; cbn [where_entry]; try apply appends_only_push.
  intro q. rewrite handleComplexCondition_entries.
  now apply appends_only_for_entries, appends_only_handle_entry.
Qed.

Lemma appends_only_where (conditions : value) :
  appends_only (where_ conditions).
Proof.
  assert (Hloop : forall es, appends_only (for_entries where_entry es))
    by (intro es; apply appends_only_for_entries, appends_only_where_entry).
  destruct conditions; cbn [where_];
    try apply appends_only_ret; try apply appends_only_push;
    intro q; unfold bind, lift; cbn [entries].
  - apply (Hloop (indexed 0 xs) q).
  - apply (Hloop props q).
Qed.


(** C3, as the code has it.  [select] and [groupBy] called with a string or
    an array, and [from] called with anything, overwrite what an earlier
    call stored (the later call alone decides the state); every call of
    [where] keeps the conditions already accumulated and puts its own after
    them; [orderBy] does the same for the sort keys when its field is a
    string, and overwrites the sort keys when its field is an array. *)
Theorem replace_or_accumulate (q : query) :
  (forall v1 s, snd (select (VStr s) (snd (select v1 q)))
                = snd (select (VStr s) q)
                /\ q_select (snd (select (VStr s) q)) = [VStr s])
  /\ (forall v1 xs, snd (select (VArr xs) (snd (select v1 q)))
                    = snd (select (VArr xs) q)
                    /\ q_select (snd (select (VArr xs) q)) = xs)
  /\ (forall t1 t2, snd (from t2 (snd (from t1 q))) = snd (from t2 q)
                    /\ q_from (snd (from t2 q)) = t2)
  /\ (forall v1 s, snd (groupBy (VStr s) (snd (groupBy v1 q)))
                   = snd (groupBy (VStr s) q)
                   /\ q_groupBy (snd (groupBy (VStr s) q)) = [VStr s])
  /\ (forall v1 xs, snd (groupBy (VArr xs) (snd (groupBy v1 q)))
                    = snd (groupBy (VArr xs) q)
                    /\ q_groupBy (snd (groupBy (VArr xs) q)) = xs)
  /\ (forall conditions, exists extra,
        q_where (snd (where_ conditions q)) = (q_where q ++ extra)%list)
  /\ (forall s direction,
        q_orderBy (snd (orderBy (VStr s) direction q))
        = (q_orderBy q
            ++ [VStr (s ++ " " ++ toString (direction_or_ASC direction))])%list)
  /\ (forall xs direction,
        q_orderBy (snd (orderBy (VArr xs) direction q)) = xs).
Proof.
  repeat split;
    try solve [ try destruct v1; cbn;
                repeat match goal with
                       | |- context [String.eqb ?a "*"] =>
                           destruct (String.eqb_spec a "*"); try subst a
                       end; reflexivity ].
  intro conditions.
  destruct (appends_only_where conditions q) as [extra H].
  exists extra. now rewrite H.
Qed.

(** C3, as stated, fails: [orderBy('a')] followed by [orderBy(['b DESC'])]
    leaves the single sort key [b DESC]; the key [a ASC] is gone, so the
    second call did not append to the keys it found. *)
Lemma orderBy_array_discards :
  let q1 := snd (orderBy (VStr "a") VUndefined constructor) in
  let q2 := snd (orderBy (VArr [VStr "b DESC"]) VUndefined q1) in
  q_orderBy q1 = [VStr "a ASC"]
  /\ q_orderBy q2 = [VStr "b DESC"]
  /\ ~ (exists extra, q_orderBy q2 = (q_orderBy q1 ++ extra)%list).
Proof.
  cbn. repeat split. intros [extra H]. discriminate H.
Qed.

(** C4.  On a builder on which [select] was never called, [from('users')]
    followed by [build()] yields [SELECT  FROM users], with an empty column
    list, and not [SELECT * FROM users]; the star appears only once
    [select('*')] has been called, as [findAll] does. *)
Theorem build_without_select :
  fst ((from (VStr "users") ;;; build) constructor)
  = Normal "SELECT  FROM users"
  /\ fst ((from (VStr "users") ;;; build) constructor)
     <> Normal "SELECT * FROM users"
  /\ fst ((select (VStr "*") ;;; from (VStr "users") ;;; build) constructor)
     = Normal "SELECT * FROM users".
Proof.
  split; [reflexivity | split; [discriminate | reflexivity]].
Qed.

(** C6.  [build()] returns a string, leaves the builder exactly as it found
    it, and so returns the same string when called again with no mutator in
    between. *)
Theorem build_is_pure (q : query) :
  snd (build q) = q
  /\ fst (build q) = Normal (Grammar.statement q)
  /\ (first <- build ;; second <- build ;; ret (first, second)) q
     = (Normal (Grammar.statement q, Grammar.statement q), q)
  /\ build (snd (build q)) = build q.
Proof.
  unfold bind, ret. rewrite !build_statement. cbn [fst snd].
  rewrite ?build_statement. repeat split.
Qed.

(** *** Substrings of concatenations *)

Section Occurrences.
Import Grammar.

Variable needle : string.
Hypothesis needle_nonempty : needle <> "".

Lemma starts_with_split (c : ascii) (a b : string) :
  has_char c needle = false ->
  starts_with needle (a ++ String c b) = starts_with needle a.
Proof.
  clear needle_nonempty. revert a.
  induction needle as [|x n IH]; intros a Hc; [now destruct a|].
  cbn [has_char] in Hc. apply orb_false_iff in Hc as [Hx Hn].
  destruct a as [|y a]; cbn [append starts_with].
  - rewrite Ascii.eqb_sym, Hx. reflexivity.
  - now rewrite IH.
Qed.

Lemma occurs_empty : occurs needle "" = false.
Proof. destruct needle; [congruence | reflexivity]. Qed.

Lemma occurs_split (c : ascii) (a b : string) :
  has_char c needle = false ->
  occurs needle (a ++ String c b) = occurs needle a || occurs needle b.
Proof.
  intros Hc. induction a as [|y a IH].
  - rewrite occurs_empty. cbn [append occurs orb].
    pose proof (starts_with_split c "" b Hc) as H. cbn [append] in H.
    rewrite H. destruct needle; [congruence | reflexivity].
  - cbn [append occurs].
    pose proof (starts_with_split c (String y a) b Hc) as H.
    cbn [append] in H. rewrite H, IH.
    now rewrite orb_assoc.
Qed.

Lemma free_empty : free needle "".
Proof. exact occurs_empty. Qed.

Lemma free_split (c : ascii) (a b : string) :
  has_char c needle = false ->
  free needle a -> free needle b -> free needle (a ++ String c b).
Proof.
  unfold free. intros Hc Ha Hb. now rewrite occurs_split, Ha, Hb.
Qed.

Hypothesis no_space : has_char " " needle = false.
Hypothesis no_comma : has_char "," needle = false.

(** [a ++ " " ++ word ++ " " ++ b]. *)
Lemma free_word (a word b : string) :
  free needle a -> free needle word -> free needle b ->
  free needle (a ++ String " " (word ++ String " " b)).
Proof.
  intros Ha Hw Hb. apply free_split; auto. apply free_split; auto.
Qed.

Lemma free_concat_word (word : string) (l : list string) :
  free needle word -> Forall (free needle) l ->
  free needle (String.concat (String " " (word ++ " ")) l).
Proof.
  intros Hw Hl. induction Hl as [|x l Hx Hl IH]; [apply free_empty|].
  destruct l as [|y l]; [exact Hx|].
  change (free needle
            (x ++ String " " (word ++ " ")
               ++ String.concat (String " " (word ++ " ")) (y :: l))).
  cbn [append]. rewrite append_assoc. cbn [append].
  apply free_word; auto.
Qed.

Lemma free_concat_comma (l : list string) :
  Forall (free needle) l -> free needle (String.concat ", " l).
Proof.
  intros Hl. induction Hl as [|x l Hx Hl IH]; [apply free_empty|].
  destruct l as [|y l]; [exact Hx|].
  change (free needle
            (x ++ String "," (String " " (String.concat ", " (y :: l))))).
  apply free_split; auto.
  apply (free_split " " ""); auto. apply free_empty.
Qed.


Lemma free_clause (a t : string) :
  free needle a -> clause_shaped needle t -> free needle (a ++ t).
Proof.
  intros Ha [->|[t' [-> Ht]]]; [now rewrite append_nil_r|].
  now apply free_split.
Qed.

Lemma clause_shaped_word (word body : string) :
  free needle word -> free needle body ->
  clause_shaped needle (String " " (word ++ String " " body)).
Proof.
  intros Hw Hb. right. eexists; split; [reflexivity|].
  now apply free_split.
Qed.

Lemma clause_shaped_joins (js : list QueryBuilder.join_descriptor) :
  (js <> [] -> free needle "JOIN" /\ free needle "ON") ->
  Forall (fun j => free needle (toString (j_type j))
                   /\ free needle (toString (j_table j))
                   /\ free needle (toString (j_condition j))) js ->
  clause_shaped needle (joins_text js).
Proof.
  intros Hwords Hjs. induction Hjs as [|j js [Ht [Hb Hc]] Hjs IH];
    [now left|].
  destruct Hwords as [HJ HO]; [discriminate|].
  right.
  exists (toString (j_type j) ++ String " " ("JOIN" ++ String " "
            (toString (j_table j) ++ String " " ("ON" ++ String " "
               (toString (j_condition j) ++ joins_text js))))).
  split.
  - cbn [joins_text fold_right]. unfold join_text.
    rewrite !append_assoc. reflexivity.
  - apply free_word; auto. apply free_word; auto.
    apply free_clause; [assumption|]. apply IH. intros _. now split.
Qed.

End Occurrences.

Lemma is_null_false (v : value) : v <> VNull -> is_null v = false.
Proof. destruct v; intros H; try reflexivity. congruence. Qed.

(** The statement contains [needle] nowhere when neither the caller's texts
    nor the words of the clauses that are present contain it. *)
Lemma statement_free (needle : string) (q : query) :
  needle <> "" ->
  Grammar.has_char " " needle = false ->
  Grammar.has_char "," needle = false ->
  Grammar.free needle "SELECT" -> Grammar.free needle "FROM" ->
  (q_joins q <> [] -> Grammar.free needle "JOIN" /\ Grammar.free needle "ON") ->
  (q_where q <> [] ->
     Grammar.free needle "WHERE" /\ Grammar.free needle "AND") ->
  (q_groupBy q <> [] ->
     Grammar.free needle "GROUP" /\ Grammar.free needle "BY") ->
  (q_having q <> [] ->
     Grammar.free needle "HAVING" /\ Grammar.free needle "AND") ->
  (q_orderBy q <> [] ->
     Grammar.free needle "ORDER" /\ Grammar.free needle "BY") ->
  (q_limit q <> VNull -> Grammar.free needle "LIMIT") ->
  (q_offset q <> VNull -> Grammar.free needle "OFFSET") ->
  Forall (Grammar.free needle) (Grammar.user_texts q) ->
  Grammar.free needle (Grammar.statement q).
Proof.
  intros Hne Hsp Hco HS HF HJ HW HG HH HO HL HX Htexts.
  unfold Grammar.user_texts in Htexts.
  repeat (apply Forall_app in Htexts;
          let H := fresh "T" in destruct Htexts as [H Htexts]).
  unfold Grammar.statement, Grammar.before_where, Grammar.after_where.
  rewrite <- !append_assoc.
  remember (Grammar.select_from q) as head eqn:Ehead.
  repeat apply free_clause; try assumption.
  - (* SELECT ... FROM ... *)
    subst head.
    change (Grammar.free needle
              ("SELECT" ++ String " "
                 (Js.join ", " (q_select q) ++ String " "
                    ("FROM" ++ String " " (toString (q_from q)))))).
    apply free_split; auto. apply free_word; auto.
    + now apply free_concat_comma.
    + now inversion T0.
  - (* joins *)
    apply clause_shaped_joins; auto.
    clear -T1. induction (q_joins q) as [|j js IH]; [constructor|].
    cbn [flat_map app] in T1.
    inversion T1 as [|? ? Ha T1']; subst.
    inversion T1' as [|? ? Hb T1'']; subst.
    inversion T1'' as [|? ? Hc T1''']; subst.
    constructor; auto.
  - (* WHERE *)
    destruct (q_where q) as [|w ws] eqn:E; [now left|].
    destruct HW as [HW HA]; [discriminate|].
    apply (clause_shaped_word needle Hne Hsp "WHERE"
             (String.concat " AND " (w :: ws))); auto.
    now apply (free_concat_word needle Hne Hsp "AND").
  - (* GROUP BY *)
    destruct (q_groupBy q) as [|g gs] eqn:E; [now left|].
    destruct HG as [HG HB]; [discriminate|].
    apply (clause_shaped_word needle Hne Hsp "GROUP"
             ("BY" ++ String " " (Js.join ", " (g :: gs)))); auto.
    apply free_split; auto. now apply free_concat_comma.
  - (* HAVING *)
    destruct (q_having q) as [|h hs] eqn:E; [now left|].
    destruct HH as [HH HA]; [discriminate|].
    apply (clause_shaped_word needle Hne Hsp "HAVING"
             (String.concat " AND " (h :: hs))); auto.
    now apply (free_concat_word needle Hne Hsp "AND").
  - (* ORDER BY *)
    destruct (q_orderBy q) as [|o os] eqn:E; [now left|].
    destruct HO as [HO HB]; [discriminate|].
    apply (clause_shaped_word needle Hne Hsp "ORDER"
             ("BY" ++ String " " (Js.join ", " (o :: os)))); auto.
    apply free_split; auto. now apply free_concat_comma.
  - (* LIMIT *)
    destruct (q_limit q) eqn:E; try (now left);
      (apply (clause_shaped_word needle Hne Hsp "LIMIT");
       [apply HL; discriminate | now inversion T6]).
  - (* OFFSET *)
    destruct (q_offset q) eqn:E; try (now left);
      (apply (clause_shaped_word needle Hne Hsp "OFFSET");
       [apply HX; discriminate | now inversion Htexts]).
Qed.

(** C7.  When the collection behind an optional clause is empty (or the
    limit or offset unset), [build()] returns a statement in which the word
    that opens that clause occurs nowhere, provided the caller's own texts do
    not contain it: in particular no [WHERE] at all when no condition was
    accumulated.  [where({})] accumulates nothing; with no condition the
    statement is the clauses before WHERE followed directly by those after
    it; and with every optional clause omitted it is only
    [SELECT <cols> FROM <source>]. *)
Theorem omitted_clause_absent (q : query) (c : Grammar.clause) :
  Grammar.omitted c q ->
  Forall (Grammar.free (Grammar.keyword c)) (Grammar.user_texts q) ->
  (exists sql, fst (build q) = Normal sql
               /\ Grammar.occurs (Grammar.keyword c) sql = false)
  /\ where_ (VObj []) q = (Normal tt, q)
  /\ (q_where q = [] ->
        fst (build q)
        = Normal (Grammar.before_where q ++ Grammar.after_where q))
  /\ ((forall c', Grammar.omitted c' q) ->
        fst (build q)
        = Normal ("SELECT " ++ Js.join ", " (q_select q) ++ " FROM "
                            ++ toString (q_from q))).
Proof.
  intros Hom Htexts. repeat split.
  - exists (Grammar.statement q). split; [now rewrite build_statement|].
    destruct c; cbn [Grammar.omitted Grammar.keyword] in *;
      apply statement_free;
      solve [ discriminate | reflexivity | assumption
            | intros; split; reflexivity
            | intros; reflexivity
            | intros; congruence ].
  - intros Hw. rewrite build_statement. cbn [fst].
    unfold Grammar.statement. now rewrite Hw.
  - intros Hall. rewrite build_statement. cbn [fst].
    unfold Grammar.statement, Grammar.before_where, Grammar.after_where,
      Grammar.select_from.
    rewrite (Hall Grammar.Join), (Hall Grammar.Where),
      (Hall Grammar.GroupBy), (Hall Grammar.Having),
      (Hall Grammar.OrderBy), (Hall Grammar.Limit), (Hall Grammar.Offset).
    cbn [Grammar.joins_text fold_right Grammar.where_text Grammar.group_text
         Grammar.having_text Grammar.order_text Grammar.limit_text
         Grammar.offset_text].
    now rewrite ?append_nil_r, ?append_assoc.
Qed.

Lemma omitted_clause_absent_witness :
  exists sql,
    fst (build (snd ((select (VArr [VStr "name"; VStr "email"]) ;;;
                      from (VStr "users") ;;;
                      where_ (VObj []) ;;;
                      orderBy (VStr "name") VUndefined) constructor)))
    = Normal sql
    /\ Grammar.occurs "WHERE" sql = false.
Proof.
  apply (omitted_clause_absent
           (snd ((select (VArr [VStr "name"; VStr "email"]) ;;;
                  from (VStr "users") ;;;
                  where_ (VObj []) ;;;
                  orderBy (VStr "name") VUndefined) constructor))
           Grammar.Where).
  - reflexivity.
  - repeat constructor.
Defined.

Lemma connect_sent (d : Connection.driver) (s : Connection.state) :
  Connection.sent (snd (Connection.connect d s)) = Connection.sent s.
Proof.
  unfold Connection.connect.
  destruct (Connection.isConnected s); [reflexivity|].
  unfold try_catch, bind, lift, modify, ret, throw.
  repeat match goal with
         | |- context [get ?c ?k] => destruct (get c k); cbn [fst snd]
         end; try reflexivity.
  match goal with
  | |- context [Connection.createClient ?d ?o] =>
      destruct (Connection.createClient d o)
  end; reflexivity.
Qed.


(** C8.  When the connection has a client and the external client's [query]
    fails with an error [e] on the request built from the SQL string and the
    options, [Connection.query] throws an error whose message is
    [Query execution failed: ] followed by the message of [e]; the client
    has then received that one request and no other, so nothing was
    retried and the failure was not swallowed. *)
Theorem query_failure_is_wrapped (d : Connection.driver) (sql options : value)
  (s : Connection.state) (format params : value) (e : error) :
  fst (Connection.connect d s) = Normal true ->
  get (options_or_empty options) "format" = Normal format ->
  get (options_or_empty options) "params" = Normal params ->
  Connection.client_query d (Connection.sent s)
    (Connection.mkRequest sql (or_else format (VStr "JSON"))
                              (or_else params (VObj [])))
  = Throw e ->
  fst (Connection.query d sql options s)
  = Throw (Error ("Query execution failed: " ++ message e))
  /\ Connection.sent (snd (Connection.query d sql options s))
     = (Connection.sent s
          ++ [Connection.mkRequest sql (or_else format (VStr "JSON"))
                                       (or_else params (VObj []))])%list.
Proof.
  intros Hc Hf Hp Hq.
  pose proof (connect_sent d s) as Hs.
  unfold Connection.query. fold (options_or_empty options).
  unfold bind, try_catch, lift, ret, throw, Connection.call_client.
  destruct (Connection.connect d s) as [[c|e'] s1]; cbn [fst snd] in *;
    [|discriminate].
  injection Hc as ->. rewrite Hf, Hp, Hs, Hq. cbn [fst snd].
  split; reflexivity.
Qed.

Lemma query_failure_is_wrapped_witness :
  let d := Connection.mkDriver (fun _ => Normal tt)
             (fun _ _ => Throw (Error "Syntax error")) in
  let s := Connection.mkState (VObj [("host", VStr "localhost");
                                     ("port", VNum 8123)]) false false [] in
  fst (Connection.query d (VStr "INVALID SQL STATEMENT") VUndefined s)
  = Throw (Error "Query execution failed: Syntax error").
Proof.
  intros d s.
  apply (query_failure_is_wrapped d (VStr "INVALID SQL STATEMENT")
           VUndefined s VUndefined VUndefined (Error "Syntax error"));
    reflexivity.
Defined.

(* ================================================================= *)
(** ** Properties of schema generation *)


Lemma process_attributes_ok (es : list (string * value)) (l : Schema.locals) :
  Forall valid_attribute es ->
  exists cols ixs,
    Schema.process_attributes es l
    = Normal (Schema.mkLocals cols ixs (last_flagged es (Schema.primaryKey l))).
Proof.
  intros Hes. revert l. induction Hes as [|[k d] es [Hk Hd] Hes IH]; intro l.
  - exists (Schema.columns l), (Schema.indexes l). now destruct l.
  - cbn [fst snd] in *. cbn [Schema.process_attributes].
    destruct d; try discriminate.
    + cbn. edestruct IH as [cols [ixs ->]]. now eexists _, _.
    + cbn [valid_definition] in Hd.
      cbn [Schema.generateColumnDefinition]. rewrite Hd.
      cbn [get].
      edestruct IH as [cols [ixs ->]]. now eexists _, _.
Qed.

Lemma last_default {A} (x : A) (l : list A) (d1 d2 : A) :
  last (x :: l) d1 = last (x :: l) d2.
Proof.
  revert x. induction l as [|y l IH]; intro x; [reflexivity|].
  change (last (y :: l) d1 = last (y :: l) d2). apply IH.
Qed.

Lemma last_flagged_spec (es : list (string * value)) (init : value) :
  last_flagged es init
  = match filter flagged es with
    | pk :: pks => VStr (fst (last (pk :: pks) pk))
    | [] => init
    end.
Proof.
  revert init. induction es as [|a es IH]; intro init; [reflexivity|].
  unfold last_flagged in *. cbn [fold_left filter]. rewrite IH.
  destruct (flagged a) eqn:Ha.
  - destruct (filter flagged es) as [|b bs] eqn:E; [reflexivity|].
    f_equal. f_equal.
    change (last (b :: bs) b = last (b :: bs) a). apply last_default.
  - reflexivity.
Qed.

Lemma order_clause_nonempty (x : string) :
  negb (String.eqb ("ORDER BY " ++ x) "") = true.
Proof. reflexivity. Qed.

Lemma last_In {A} (x : A) (l : list A) (d : A) :
  In (last (x :: l) d) (x :: l).
Proof.
  revert x. induction l as [|y l IH]; intro x; [now left|].
  right. change (In (last (y :: l) d) (y :: l)). apply IH.
Qed.

Lemma last_flagged_name (attrs : list (string * value)) pk pks :
  Forall valid_attribute attrs ->
  filter flagged attrs = pk :: pks ->
  fst (last (pk :: pks) pk) <> "".
Proof.
  intros Hv E.
  assert (Hin : In (last (pk :: pks) pk) (filter flagged attrs)).
  { rewrite E. apply last_In. }
  apply filter_In in Hin as [Hin _].
  rewrite Forall_forall in Hv. now apply Hv.
Qed.

Lemma filter_none {A} (f : A -> bool) (l : list A) :
  (forall a, In a l -> f a = false) -> filter f l = [].
Proof.
  induction l as [|x l IH]; intros H; [reflexivity|].
  cbn [filter]. rewrite (H x (or_introl eq_refl)).
  apply IH. intros a Ha. apply H. now right.
Qed.

(** The precedence [order_key] encodes. *)
Lemma order_key_precedence (attrs os : list (string * value)) :
  ((exists a, In a attrs /\ flagged a = true) ->
   exists a, In a attrs /\ flagged a = true /\ order_key attrs os = fst a)
  /\ ((forall a, In a attrs -> flagged a = false) ->
      truthy (lookup "orderBy" os) = true ->
      order_key attrs os = toString (lookup "orderBy" os))
  /\ ((forall a, In a attrs -> flagged a = false) ->
      truthy (lookup "orderBy" os) = false ->
      forall first definition rest,
        attrs = (first, definition) :: rest ->
        order_key attrs os = first).
Proof.
  unfold order_key. repeat split.
  - intros [a [Hin Hf]].
    assert (Hfil : In a (filter flagged attrs)) by now apply filter_In.
    destruct (filter flagged attrs) as [|pk pks] eqn:E; [contradiction|].
    assert (Hl : In (last (pk :: pks) pk) attrs
                 /\ flagged (last (pk :: pks) pk) = true)
      by (apply filter_In; rewrite E; apply last_In).
    exists (last (pk :: pks) pk). now repeat split.
  - intros Hnone Hob. now rewrite (filter_none _ _ Hnone), Hob.
  - intros Hnone Hob first definition rest ->.
    now rewrite (filter_none _ _ Hnone), Hob.
Qed.

(** C9.  For a model whose attributes are named and defined by a type string
    or an object with a type, [generateCreateTableSQL] returns a statement
    whose ENGINE clause is followed by an ORDER BY clause naming
    [order_key]: an attribute with a truthy [primaryKey] flag if there is
    one, whatever the [orderBy] option says; otherwise the [orderBy] option
    if it is set; otherwise the first attribute. *)
Theorem create_table_order_by (m : Schema.model) (opts : value)
  (attrs os : list (string * value)) :
  Schema.attributes m = VObj attrs ->
  Schema.options m = VObj os ->
  opts <> VNull ->
  Forall valid_attribute attrs ->
  (exists head,
     Schema.generateCreateTableSQL m opts
     = Normal (head ++ ") ENGINE = " ++ engine_of os ++ Schema.nl
                    ++ "ORDER BY " ++ order_key attrs os
                    ++ settings_text os))
  /\ ((exists a, In a attrs /\ flagged a = true) ->
      exists a, In a attrs /\ flagged a = true
                /\ order_key attrs os = fst a)
  /\ ((forall a, In a attrs -> flagged a = false) ->
      truthy (lookup "orderBy" os) = true ->
      order_key attrs os = toString (lookup "orderBy" os))
  /\ ((forall a, In a attrs -> flagged a = false) ->
      truthy (lookup "orderBy" os) = false ->
      forall first definition rest,
        attrs = (first, definition) :: rest ->
        order_key attrs os = first).
Proof.
  intros Ha Ho Hopts Hv.
  split; [|exact (order_key_precedence attrs os)].
  unfold Schema.generateCreateTableSQL. rewrite Ha, Ho.
  cbn [entries Schema.bindc get].
  destruct (process_attributes_ok attrs (Schema.mkLocals [] [] VNull) Hv)
    as [cols [ixs ->]].
  cbn [Schema.bindc Schema.primaryKey Schema.columns].
  rewrite last_flagged_spec.
  assert (Hine : exists ine,
            get match opts with VUndefined => VObj [] | _ => opts end
                "ifNotExists" = Normal ine)
    by (destruct opts; try congruence; eexists; reflexivity).
  destruct Hine as [ine ->].
  (* the ORDER BY clause the precedence selects *)
  match goal with
  | |- context [Schema.bindc (if ?b then ?x else ?y) _] =>
      assert (Hclause : (if b then x else y)
                        = Normal ("ORDER BY " ++ order_key attrs os))
  end.
  { unfold order_key.
    destruct (filter flagged attrs) as [|pk pks] eqn:E.
    - cbn [truthy Schema.bindc].
      destruct (truthy (lookup "orderBy" os)); [reflexivity|].
      now destruct attrs as [|[k definition] attrs].
    - cbn [truthy toString].
      pose proof (last_flagged_name attrs pk pks Hv E) as Hne.
      apply String.eqb_neq in Hne. now rewrite Hne. }
  rewrite Hclause. cbn [Schema.bindc]. rewrite order_clause_nonempty.
  exists ((if Schema.is_not_false ine
           then "CREATE TABLE" ++ " IF NOT EXISTS" else "CREATE TABLE")
          ++ " " ++ toString (Schema.tableName m) ++ " (" ++ Schema.nl
          ++ "  " ++ String.concat ("," ++ Schema.nl ++ "  ") cols
          ++ Schema.nl).
  unfold settings_text, engine_of.
  destruct (lookup "settings" os) as [| |b|z|t|xs|ps];
    cbn [truthy entries Schema.bindc];
    try destruct b; try destruct (negb (Z.eqb z 0));
    try destruct (negb (String.eqb t ""));
    rewrite ?append_assoc, ?append_nil_r; reflexivity.
Qed.

Lemma create_table_order_by_witness :
  exists head,
    Schema.generateCreateTableSQL
      (Schema.mkModel "SchemaTest" (VStr "schema_test")
         (VObj [("name", VStr "String");
                ("id", VObj [("type", VStr "UInt32");
                             ("primaryKey", VBool true)])])
         (VObj [("orderBy", VStr "name")]))
      VUndefined
    = Normal (head ++ ") ENGINE = MergeTree()" ++ Schema.nl ++ "ORDER BY id").
Proof.
  destruct (create_table_order_by
              (Schema.mkModel "SchemaTest" (VStr "schema_test")
                 (VObj [("name", VStr "String");
                        ("id", VObj [("type", VStr "UInt32");
                                     ("primaryKey", VBool true)])])
                 (VObj [("orderBy", VStr "name")]))
              VUndefined
              [("name", VStr "String");
               ("id", VObj [("type", VStr "UInt32");
                            ("primaryKey", VBool true)])]
              [("orderBy", VStr "name")]
              eq_refl eq_refl)
    as [[head Hsql] _].
  - discriminate.
  - repeat constructor; discriminate.
  - exists head. exact Hsql.
Defined.

(* ================================================================= *)
(** ** Properties of the finders *)

Lemma lookup_set_prop_same (k : string) (v : value)
  (props : list (string * value)) :
  lookup k (set_prop k v props) = v.
Proof.
  induction props as [|[k' v'] props IH]; cbn [set_prop lookup].
  - now rewrite String.eqb_refl.
  - destruct (String.eqb k k') eqn:E; cbn [lookup]; rewrite E; auto.
Qed.

Lemma lookup_set_prop_other (k k0 : string) (v : value)
  (props : list (string * value)) :
  k0 <> k -> lookup k0 (set_prop k v props) = lookup k0 props.
Proof.
  intros Hne. induction props as [|[k' v'] props IH]; cbn [set_prop lookup].
  - apply String.eqb_neq in Hne. now rewrite Hne.
  - destruct (String.eqb_spec k k') as [->|Hk]; cbn [lookup].
    + apply String.eqb_neq in Hne. now rewrite Hne.
    + now rewrite IH.
Qed.





Example findOne_no_rows :
  let d := Connection.mkDriver (fun _ => Normal tt)
             (fun _ _ => Normal (Connection.mkResultSet
                (Normal (VObj [("data", VArr [])])))) in
  let m := Schema.mkModel "User" (VStr "users") (VObj []) (VObj []) in
  let s := Connection.mkState (VObj []) false false [] in
  fst (Model.findOne d m VUndefined s) = Normal VNull.
Proof. reflexivity. Qed.

(* ================================================================= *)
(** ** Further properties of the query builder *)

Import Defaults.

Lemma for_entries_app (body : string -> value -> method unit)
  (es1 es2 : list (string * value)) (q : query) :
  for_entries body (es1 ++ es2) q
  = (for_entries body es1 ;;; for_entries body es2) q.
Proof.
  revert q. induction es1 as [|[k v] es1 IH]; intro q.
  - reflexivity.
  - cbn [app for_entries]. unfold bind.
    destruct (body k v q) as [[[]|e] q1]; [|reflexivity].
    rewrite IH. reflexivity.
Qed.


(* ================================================================= *)
(** ** Further properties of the connection *)

Import Traffic.

Lemma connect_connected (d : Connection.driver) (s : Connection.state) :
  connected s -> Connection.connect d s = (Normal true, s).
Proof.
  intros [Hi Hc]. unfold Connection.connect. now rewrite Hi, Hc.
Qed.

(** A successful [connect] leaves a connection that holds a client and has
    sent nothing more. *)
Lemma connect_ready (d : Connection.driver) (s : Connection.state) :
  fst (Connection.connect d s) = Normal true ->
  connected (snd (Connection.connect d s))
  /\ Connection.sent (snd (Connection.connect d s)) = Connection.sent s
  /\ Connection.config (snd (Connection.connect d s)) = Connection.config s.
Proof.
  unfold Connection.connect, connected.
  destruct (Connection.isConnected s) eqn:Hi.
  - cbn [fst snd]. intros H. injection H as Hc. now rewrite Hi, Hc.
  - unfold try_catch, bind, lift, modify, ret, throw.
    repeat match goal with
           | |- context [get ?c ?k] => destruct (get c k); cbn [fst snd]
           end; try discriminate.
    match goal with
    | |- context [Connection.createClient ?d ?o] =>
        destruct (Connection.createClient d o)
    end; cbn [fst snd]; [intros _; now repeat split | discriminate].
Qed.

(** X2.  Once [connect] has succeeded, the connection holds its client:
    a later [connect], with whatever driver, returns that client and leaves
    the connection as it is, without constructing a client again. *)
Theorem connect_only_once (d d' : Connection.driver) (s : Connection.state) :
  fst (Connection.connect d s) = Normal true ->
  Connection.connect d' (snd (Connection.connect d s))
  = (Normal true, snd (Connection.connect d s)).
Proof.
  intros H. apply connect_connected. now apply connect_ready.
Qed.

Lemma connect_only_once_witness :
  let d := Connection.mkDriver (fun _ => Normal tt)
             (fun _ _ => Throw (Error "unused")) in
  let d' := Connection.mkDriver (fun _ => Throw (Error "no route"))
              (fun _ _ => Throw (Error "unused")) in
  let s := Connection.mkState (VObj []) false false [] in
  fst (Connection.connect d' (snd (Connection.connect d s))) = Normal true.
Proof.
  intros d d' s.
  now rewrite (connect_only_once d d' s eq_refl).
Defined.

(** The client is constructed on no configuration: [connect] fails with the
    wrapped message and leaves the connection as it was. *)
Lemma connect_fails (d : Connection.driver) (s : Connection.state)
  (cfg : list (string * value)) (e : error) :
  Connection.isConnected s = false ->
  Connection.config s = VObj cfg ->
  (forall o, Connection.createClient d o = Throw e) ->
  Connection.connect d s
  = (Throw (Error ("Failed to connect to ClickHouse: " ++ message e)), s).
Proof.
  intros Hi Hc Hd. unfold Connection.connect. rewrite Hi, Hc.
  unfold try_catch, bind, lift, throw. cbn [get]. now rewrite Hd.
Qed.

(** X3.  When the connection is not yet open and the client cannot be
    constructed, [query] fails with the two prefixes stacked,
    [Query execution failed: Failed to connect to ClickHouse: ] before the
    original message; nothing is sent and the connection is left as it was,
    so that the next call tries to construct the client again. *)
Theorem query_without_client (d : Connection.driver) (s : Connection.state)
  (cfg : list (string * value)) (e : error) (sql options : value) :
  Connection.isConnected s = false ->
  Connection.config s = VObj cfg ->
  (forall o, Connection.createClient d o = Throw e) ->
  Connection.query d sql options s
  = (Throw (Error ("Query execution failed: Failed to connect to ClickHouse: "
                     ++ message e)), s).
Proof.
  intros Hi Hc Hd. unfold Connection.query, bind, try_catch.
  rewrite (connect_fails d s cfg e Hi Hc Hd). reflexivity.
Qed.

Lemma query_without_client_witness :
  let d := Connection.mkDriver (fun _ => Throw (Error "bad url"))
             (fun _ _ => Normal (Connection.mkResultSet (Normal VNull))) in
  let s := Connection.mkState (VObj []) false false [] in
  Connection.query d (VStr "SELECT 1") VUndefined s
  = (Throw (Error
       "Query execution failed: Failed to connect to ClickHouse: bad url"),
     s).
Proof.
  intros d s.
  apply (query_without_client d s [] (Error "bad url")); reflexivity.
Defined.

(** What [query] does once [connect] has given it a client: one request,
    then the answer by format. *)
Lemma query_exchange (d : Connection.driver) (sql options : value)
  (s : Connection.state) (format params : value) :
  fst (Connection.connect d s) = Normal true ->
  get (options_or_empty options) "format" = Normal format ->
  get (options_or_empty options) "params" = Normal params ->
  let s1 := snd (Connection.connect d s) in
  let req := Connection.mkRequest sql (or_else format (VStr "JSON"))
                                      (or_else params (VObj [])) in
  Connection.query d sql options s
  = (match Connection.client_query d (Connection.sent s1) req with
     | Throw e => Throw (Error ("Query execution failed: " ++ message e))
     | Normal result =>
         if Connection.is_JSON format || negb (truthy format)
         then match Connection.json result with
              | Normal v => Normal (Connection.Json v)
              | Throw e => Throw e
              end
         else Normal (Connection.Raw result)
     end,
     sent_one s1 req).
Proof.
  intros Hc Hf Hp s1 req. subst s1.
  unfold Connection.query. fold (options_or_empty options).
  unfold bind, try_catch, lift, ret, throw, Connection.call_client.
  destruct (Connection.connect d s) as [[c|e'] s1]; cbn [fst snd] in *;
    [|discriminate].
  injection Hc as ->. rewrite Hf, Hp. fold req.
  destruct (Connection.client_query d (Connection.sent s1) req) as [r|e];
    [|reflexivity].
  destruct (Connection.is_JSON format || negb (truthy format));
    [|reflexivity].
  destruct (Connection.json r); reflexivity.
Qed.

(** X4.  When the external client answers, [query] has sent exactly one
    request, with the format defaulted to [JSON] and the parameters to
    [{}]; it resolves with the parsed rows when the format is [JSON] or
    absent, and with the client's result as it is for any other format. *)
Theorem query_answer (d : Connection.driver) (sql options : value)
  (s : Connection.state) (format params : value)
  (result : Connection.result_set) :
  fst (Connection.connect d s) = Normal true ->
  get (options_or_empty options) "format" = Normal format ->
  get (options_or_empty options) "params" = Normal params ->
  Connection.client_query d (Connection.sent s)
    (Connection.mkRequest sql (or_else format (VStr "JSON"))
                              (or_else params (VObj [])))
  = Normal result ->
  Connection.sent (snd (Connection.query d sql options s))
  = (Connection.sent s
       ++ [Connection.mkRequest sql (or_else format (VStr "JSON"))
                                    (or_else params (VObj []))])%list
  /\ (Connection.is_JSON format || negb (truthy format) = true ->
      forall rows, Connection.json result = Normal rows ->
      fst (Connection.query d sql options s) = Normal (Connection.Json rows))
  /\ (Connection.is_JSON format || negb (truthy format) = false ->
      fst (Connection.query d sql options s) = Normal (Connection.Raw result)).
Proof.
  intros Hc Hf Hp Hq.
  destruct (connect_ready d s Hc) as [_ [Hs _]].
  rewrite (query_exchange d sql options s format params Hc Hf Hp).
  cbn [fst snd]. rewrite Hs, Hq. repeat split.
  - cbn. now rewrite Hs.
  - intros Hj rows Hr. now rewrite Hj, Hr.
  - intros Hj. now rewrite Hj.
Qed.

Lemma query_answer_witness :
  let result := Connection.mkResultSet (Normal (VObj [("data", VArr [])])) in
  let d := Connection.mkDriver (fun _ => Normal tt)
             (fun _ _ => Normal result) in
  let s := Connection.mkState (VObj []) false false [] in
  fst (Connection.query d (VStr "SELECT 1")
         (VObj [("format", VStr "CSV")]) s)
  = Normal (Connection.Raw result).
Proof.
  intros result d s.
  apply (query_answer d (VStr "SELECT 1") (VObj [("format", VStr "CSV")]) s
           (VStr "CSV") VUndefined result); reflexivity.
Defined.

(** X5.  A rejection of [result.json()] is not wrapped: the promise is
    returned from the [try] block without being awaited, so [query] fails
    with the original error, without the [Query execution failed: ]
    prefix that a failure of the client's [query] gets. *)
Theorem json_rejection_not_wrapped (d : Connection.driver) (sql : value)
  (s : Connection.state) (result : Connection.result_set) (e : error) :
  fst (Connection.connect d s) = Normal true ->
  Connection.client_query d (Connection.sent s)
    (Connection.mkRequest sql (VStr "JSON") (VObj [])) = Normal result ->
  Connection.json result = Throw e ->
  fst (Connection.query d sql VUndefined s) = Throw e.
Proof.
  intros Hc Hq Hj.
  destruct (connect_ready d s Hc) as [_ [Hs _]].
  rewrite (query_exchange d sql VUndefined s VUndefined VUndefined Hc
             eq_refl eq_refl).
  cbn [fst]. rewrite Hs. cbn [or_else truthy]. rewrite Hq. cbn.
  now rewrite Hj.
Qed.

Lemma json_rejection_not_wrapped_witness :
  let d := Connection.mkDriver (fun _ => Normal tt)
             (fun _ _ => Normal (Connection.mkResultSet
                                   (Throw (Error "Unexpected token")))) in
  let s := Connection.mkState (VObj []) false false [] in
  fst (Connection.query d (VStr "SELECT 1") VUndefined s)
  = Throw (Error "Unexpected token").
Proof.
  intros d s.
  apply (json_rejection_not_wrapped d (VStr "SELECT 1") s
           (Connection.mkResultSet (Throw (Error "Unexpected token")))
           (Error "Unexpected token")); reflexivity.
Defined.

(** *** The configuration the constructor stores *)

Lemma lookup_absent (k : string) (props : list (string * value)) :
  ~ In k (map fst props) -> lookup k props = VUndefined.
Proof.
  induction props as [|[k' v] props IH]; intros Hk; [reflexivity|].
  cbn [lookup]. cbn [map fst In] in Hk.
  destruct (String.eqb_spec k k') as [->|Hne]; [tauto|].
  apply IH. tauto.
Qed.

Lemma lookup_assign_other (k : string) (source target : list (string * value)) :
  ~ In k (map fst source) ->
  lookup k (Adapter.assign target source) = lookup k target.
Proof.
  unfold Adapter.assign. revert target.
  induction source as [|[k' v] source IH]; intros target Hk; [reflexivity|].
  cbn [fold_left fst snd]. cbn [map fst In] in Hk.
  rewrite IH by tauto. apply lookup_set_prop_other.
  intros ->. tauto.
Qed.

Lemma lookup_assign_same (k : string) (v : value)
  (source target : list (string * value)) :
  NoDup (map fst source) -> In (k, v) source ->
  lookup k (Adapter.assign target source) = v.
Proof.
  unfold Adapter.assign. revert target.
  induction source as [|[k' v'] source IH]; intros target Hnd Hin;
    [contradiction|].
  cbn [fold_left fst snd]. cbn [map fst] in Hnd.
  inversion Hnd as [|? ? Hnotin Hnd']; subst.
  destruct Hin as [Heq|Hin].
  - injection Heq as -> ->.
    fold (Adapter.assign (set_prop k v target) source).
    rewrite lookup_assign_other by assumption.
    apply lookup_set_prop_same.
  - now apply IH.
Qed.

(** X6.  [new Connection(config)] stores every property of [config] as it
    was given, falsy values included (the spread comes after the defaults),
    and fills in [localhost], [8123], [default], the empty password and
    [default] only for those of [host], [port], [username], [password],
    [database] that [config] does not have; the connection starts closed. *)
Theorem constructor_config (props : list (string * value)) :
  NoDup (map fst props) ->
  exists cfg,
    Adapter.constructor (VObj props)
    = Normal (Connection.mkState (VObj cfg) false false [])
    /\ (forall k v, In (k, v) props -> lookup k cfg = v)
    /\ (forall k, ~ In k (map fst props) ->
          lookup k cfg
          = lookup k [("host", VStr "localhost"); ("port", VNum 8123);
                      ("username", VStr "default"); ("password", VStr "");
                      ("database", VStr "default")]).
Proof.
  intros Hnd. eexists. split; [reflexivity|]. split.
  - intros k v Hin. now apply lookup_assign_same.
  - intros k Hk. cbn [Model.spread entries].
    rewrite lookup_assign_other by assumption.
    cbn [lookup].
    repeat match goal with
           | |- context [String.eqb k ?lit] =>
               destruct (String.eqb_spec k lit) as [->|?];
               [now rewrite (lookup_absent _ _ Hk)|]
           end.
    reflexivity.
Qed.

Lemma constructor_config_witness :
  exists cfg,
    Adapter.constructor (VObj [("host", VStr ""); ("database", VStr "test_orm")])
    = Normal (Connection.mkState (VObj cfg) false false [])
    /\ lookup "host" cfg = VStr ""
    /\ lookup "port" cfg = VNum 8123.
Proof.
  destruct (constructor_config
              [("host", VStr ""); ("database", VStr "test_orm")])
    as [cfg [Hc [Hgiven Hdefault]]].
  - repeat constructor; cbn; intuition discriminate.
  - exists cfg. split; [exact Hc|]. split.
    + apply Hgiven. now left.
    + rewrite Hdefault; [reflexivity|]. cbn. intuition discriminate.
Defined.

(** *** [authenticate] and [insert] *)

(** X7.  [authenticate] sends the one statement [SELECT 1 as test] in JSON
    format: it resolves with the parsed answer when the client accepts it,
    and fails with [Authentication failed: ] before the client's message
    when the client rejects it. *)
Theorem authenticate_exchange (d : Connection.driver) (s : Connection.state) :
  fst (Connection.connect d s) = Normal true ->
  let req := Connection.mkRequest (VStr "SELECT 1 as test") (VStr "JSON")
                                  VUndefined in
  Connection.sent (snd (Adapter.authenticate d s))
  = (Connection.sent s ++ [req])%list
  /\ (forall e, Connection.client_query d (Connection.sent s) req = Throw e ->
        fst (Adapter.authenticate d s)
        = Throw (Error ("Authentication failed: " ++ message e)))
  /\ (forall result, Connection.client_query d (Connection.sent s) req
                     = Normal result ->
        fst (Adapter.authenticate d s) = Connection.json result).
Proof.
  intros Hc req.
  destruct (connect_ready d s Hc) as [_ [Hs _]].
  unfold Adapter.authenticate, bind, try_catch, lift, ret, throw,
    Connection.call_client.
  destruct (Connection.connect d s) as [[c|e'] s1]; cbn [fst snd] in *;
    [|discriminate].
  injection Hc as ->. fold req. rewrite Hs.
  destruct (Connection.client_query d (Connection.sent s) req) as [r|e];
    cbn [fst snd]; rewrite ?Hs; repeat split; try discriminate.
  - intros result H. now injection H as ->.
  - intros e0 H. now injection H as ->.
Qed.

Lemma authenticate_exchange_witness :
  let d := Connection.mkDriver (fun _ => Normal tt)
             (fun _ _ => Throw (Error "Access denied")) in
  let s := Connection.mkState (VObj []) false false [] in
  fst (Adapter.authenticate d s)
  = Throw (Error "Authentication failed: Access denied").
Proof.
  intros d s.
  destruct (authenticate_exchange d s eq_refl) as [_ [Hfail _]].
  apply (Hfail (Error "Access denied")). reflexivity.
Defined.

(** X8.  [insert] hands the external client the table, the format (by
    default [JSON]) and the data as an array, a record that is not an array
    becoming an array of that one record, so that inserting a record and
    inserting the array holding only that record are the same call; a
    rejection by the client comes back with [Insert failed: ] before its
    message. *)
Theorem insert_rows (d : Connection.driver)
  (client_insert : Adapter.insertion -> completion value)
  (table data options format : value) (s : Connection.state) :
  fst (Connection.connect d s) = Normal true ->
  get (options_or_empty options) "format" = Normal format ->
  let sent_rows := Adapter.mkInsertion table (Adapter.as_rows data)
                     (or_else format (VStr "JSON")) in
  Adapter.insert d client_insert table data options s
  = (match client_insert sent_rows with
     | Normal ack => Normal ack
     | Throw e => Throw (Error ("Insert failed: " ++ message e))
     end, snd (Connection.connect d s))
  /\ (is_array data = false ->
      Adapter.insert d client_insert table (VArr [data]) options s
      = Adapter.insert d client_insert table data options s).
Proof.
  intros Hc Hf sent_rows.
  assert (Hgen : forall data',
    Adapter.insert d client_insert table data' options s
    = (match client_insert
               (Adapter.mkInsertion table (Adapter.as_rows data')
                                    (or_else format (VStr "JSON"))) with
       | Normal ack => Normal ack
       | Throw e => Throw (Error ("Insert failed: " ++ message e))
       end, snd (Connection.connect d s))).
  { intro data'. unfold Adapter.insert. fold (options_or_empty options).
    unfold bind, try_catch, lift, ret, throw.
    destruct (Connection.connect d s) as [[c|e'] s1]; cbn [fst snd] in *;
      [|discriminate].
    injection Hc as ->. rewrite Hf.
    now destruct (client_insert _). }
  split; [apply Hgen|].
  intros Hna. rewrite !Hgen.
  now destruct data.
Qed.

Lemma insert_rows_witness :
  let d := Connection.mkDriver (fun _ => Normal tt)
             (fun _ _ => Throw (Error "unused")) in
  let s := Connection.mkState (VObj []) false false [] in
  let reject := fun _ : Adapter.insertion =>
                  @Throw value (Error "Table users does not exist") in
  fst (Adapter.insert d reject (VStr "users") (VObj [("id", VNum 1)])
         VUndefined s)
  = Throw (Error "Insert failed: Table users does not exist").
Proof.
  intros d s reject.
  destruct (insert_rows d reject (VStr "users") (VObj [("id", VNum 1)])
              VUndefined VUndefined s eq_refl eq_refl) as [H _].
  now rewrite H.
Defined.

(* ================================================================= *)
(** ** Further properties of the query builder: failures and call order *)

Lemma joins_text_app (js1 js2 : list join_descriptor) :
  Grammar.joins_text (js1 ++ js2)
  = Grammar.joins_text js1 ++ Grammar.joins_text js2.
Proof.
  induction js1 as [|j js1 IH]; [reflexivity|].
  cbn [app Grammar.joins_text fold_right]. fold (Grammar.joins_text (js1 ++ js2)).
  fold (Grammar.joins_text js1). now rewrite IH, append_assoc.
Qed.

(** X9.  Every call of [join], [leftJoin] or [rightJoin] adds one clause
    [<KIND> JOIN <table> ON <condition>] behind the joins already there and
    before WHERE, [join] without a kind being an INNER join; the rest of the
    statement [build] returns is unchanged. *)
Theorem join_adds_one_clause (table condition type : value) (q : query) :
  let kind := match type with VUndefined => VStr "INNER" | _ => type end in
  fst (build (snd (join table condition type q)))
  = Normal (Grammar.before_where q
              ++ " " ++ toString kind ++ " JOIN " ++ toString table
              ++ " ON " ++ toString condition
              ++ Grammar.where_text (q_where q) ++ Grammar.after_where q)
  /\ leftJoin table condition q = join table condition (VStr "LEFT") q
  /\ rightJoin table condition q = join table condition (VStr "RIGHT") q.
Proof.
  intros kind. split; [|split; reflexivity].
  rewrite build_statement. cbn [fst]. f_equal.
  unfold join, modify. cbn [snd]. fold kind.
  unfold Grammar.statement, Grammar.before_where.
  cbn [q_joins set_joins q_where].
  change (Grammar.select_from (set_joins (q_joins q ++ [mkJoin kind table condition]) q))
    with (Grammar.select_from q).
  change (Grammar.after_where (set_joins (q_joins q ++ [mkJoin kind table condition]) q))
    with (Grammar.after_where q).
  rewrite joins_text_app.
  cbn [Grammar.joins_text fold_right]. unfold Grammar.join_text.
  cbn [j_type j_table j_condition].
  rewrite ?append_assoc. cbn [append]. rewrite ?append_assoc. reflexivity.
Qed.

(** *** What [where] pushes does not depend on the builder *)

Lemma pushes_ret : pushes (ret tt) (Normal tt) [].
Proof. intro q. cbn. now rewrite app_nil_r, set_where_same. Qed.

Lemma pushes_throw (e : error) : pushes (throw e) (Throw e) [].
Proof. intro q. cbn. now rewrite app_nil_r, set_where_same. Qed.

Lemma pushes_push (s : string) : pushes (push_where s) (Normal tt) [s].
Proof. intro q. reflexivity. Qed.

Lemma pushes_bind (m k : method unit) (o1 o2 : completion unit)
  (x1 x2 : list string) :
  pushes m o1 x1 -> pushes k o2 x2 ->
  pushes (m ;;; k)
         (match o1 with Normal _ => o2 | Throw e => Throw e end)
         (match o1 with Normal _ => x1 ++ x2 | Throw _ => x1 end).
Proof.
  intros Hm Hk q. unfold bind. rewrite Hm.
  destruct o1 as [[]|e]; [|reflexivity].
  rewrite Hk, q_where_set_where, set_where_twice. now rewrite app_assoc.
Qed.

Lemma pushes_for_entries (body : string -> value -> method unit)
  (es : list (string * value)) :
  (forall k v, exists o x, pushes (body k v) o x) ->
  exists o x, pushes (for_entries body es) o x.
Proof.
  intros Hbody. induction es as [|[k v] es [o2 [x2 IH]]]; cbn [for_entries].
  - eexists _, _. apply pushes_ret.
  - destruct (Hbody k v) as [o1 [x1 H1]].
    eexists _, _. apply (pushes_bind _ _ _ _ _ _ H1 IH).
Qed.

Lemma pushes_quote_list (v : value) (g : string -> string) :
  exists o x, pushes (l <- lift (quote_list v) ;; push_where (g l)) o x.
Proof.
  destruct (quote_list v) as [l|e] eqn:E;
    [exists (Normal tt), [g l] | exists (Throw e), []];
    intro q; unfold bind, lift; cbn [push_where modify];
    rewrite ?app_nil_r, ?set_where_same; reflexivity.
Qed.

Lemma pushes_handle_entry (f tag : string) (v : value) :
  exists o x, pushes (handle_entry f tag v) o x.
Proof.
  unfold handle_entry.
  repeat match goal with
         | |- context [if ?b then _ else _] => destruct b
         end;
    first [ eexists _, _; apply pushes_push
          | eexists _, _; apply pushes_ret
          | apply (pushes_quote_list v (fun l => f ++ " IN (" ++ l ++ ")"))
          | apply (pushes_quote_list v
                     (fun l => f ++ " NOT IN (" ++ l ++ ")")) ].
Qed.

Lemma pushes_where_entry (f : string) (v : value) :
  exists o x, pushes (where_entry f v) o x.
Proof.
  destruct v; cbn [where_entry];
    try (eexists _, _; apply pushes_push).
  apply (pushes_for_entries (handle_entry f) props).
  intros k v. apply pushes_handle_entry.
Qed.

Lemma pushes_where (conditions : value) :
  exists o x, pushes (where_ conditions) o x.
Proof.
  assert (Hloop : forall es, exists o x,
             pushes (for_entries where_entry es) o x)
    by (intro es; apply pushes_for_entries; apply pushes_where_entry).
  destruct conditions; cbn [where_];
    try (eexists _, _; apply pushes_ret);
    try (eexists _, _; apply pushes_push).
  - eexists _, _. apply (pushes_throw
      (TypeError "Cannot convert undefined or null to object")).
  - apply (Hloop (indexed 0 xs)).
  - apply (Hloop props).
Qed.

(** X10.  What a call of [where] does is fixed by its argument alone: it
    has one outcome and one list of fragments, the same on every builder,
    and it leaves the builder with those fragments behind the conditions
    it found and with nothing else changed.  So where [where] completes,
    the statement does not depend on whether it was called before or after
    [select], [from], [orderBy] and [limit]. *)
Theorem where_independent_of_builder (conditions : value) :
  exists outcome fragments,
    (forall q, where_ conditions q
               = (outcome, set_where (q_where q ++ fragments) q))
    /\ (outcome = Normal tt ->
        forall fields table field direction n q,
          build (snd ((limit n ;;; orderBy (VStr field) direction ;;;
                       where_ conditions ;;; from table ;;;
                       select (VArr fields)) q))
          = build (snd ((select (VArr fields) ;;; from table ;;;
                         where_ conditions ;;;
                         orderBy (VStr field) direction ;;; limit n) q))).
Proof.
  destruct (pushes_where conditions) as [o [x H]].
  exists o, x. split; [exact H|].
  intros -> fields table field direction n q.
  rewrite !build_statement.
  unfold bind. cbn [limit orderBy from select modify].
  rewrite !H. reflexivity.
Qed.

Lemma where_independent_of_builder_witness :
  build (snd ((limit (VNum 10) ;;; orderBy (VStr "name") VUndefined ;;;
               where_ (VObj [("age", VObj [("gte", VNum 18)])]) ;;;
               from (VStr "users") ;;;
               select (VArr [VStr "name"])) constructor))
  = (Normal "SELECT name FROM users WHERE age >= '18' ORDER BY name ASC LIMIT 10",
     snd ((select (VArr [VStr "name"]) ;;; from (VStr "users") ;;;
           where_ (VObj [("age", VObj [("gte", VNum 18)])]) ;;;
           orderBy (VStr "name") VUndefined ;;; limit (VNum 10)) constructor)).
Proof.
  destruct (where_independent_of_builder
              (VObj [("age", VObj [("gte", VNum 18)])]))
    as [o [x [Hall Hswap]]].
  assert (Ho : o = Normal tt).
  { pose proof (Hall constructor) as H. cbn in H. now injection H. }
  rewrite (Hswap Ho [VStr "name"] (VStr "users") "name" VUndefined (VNum 10)
             constructor).
  reflexivity.
Defined.

(** X11.  When an entry [in] or [notIn] of an OperatorMap holds something
    other than an array, [where] throws a TypeError at that entry: the
    fragments of the entries before it have already been pushed and stay in
    the builder, and the entries after it are never looked at. *)
Theorem where_fails_midway (f tag : string) (v : value)
  (before after : list (string * value)) (q : query) :
  Forall Grammar.operator_entry before ->
  Grammar.is_membership tag = true ->
  is_array v = false ->
  exists msg,
    where_ (VObj [(f, VObj (before ++ (tag, v) :: after))]) q
    = (Throw (TypeError msg),
       set_where (q_where q ++ map (Grammar.fragment f) before) q).
Proof.
  intros Hbefore Htag Hv.
  assert (Hentry : exists msg, forall q0,
            handle_entry f tag v q0 = (Throw (TypeError msg), q0)).
  { unfold Grammar.is_membership in Htag.
    cbn [Grammar.assoc Grammar.membership_table] in Htag.
    unfold handle_entry.
    split_tag tag; try discriminate;
      (destruct v; try discriminate; eexists; intro; reflexivity). }
  destruct Hentry as [msg Hentry]. exists msg.
  rewrite where_single. cbn [where_entry].
  rewrite handleComplexCondition_entries, for_entries_app.
  unfold bind at 1.
  rewrite (for_entries_push (handle_entry f) (Grammar.fragment f) before).
  - cbn [for_entries]. unfold bind. now rewrite Hentry.
  - intros k v0 q0 Hin. apply handle_entry_recognized.
    rewrite Forall_forall in Hbefore. exact (Hbefore _ Hin).
Qed.

Lemma where_fails_midway_witness :
  exists msg,
    where_ (VObj [("status", VObj [("ne", VStr "banned");
                                   ("in", VStr "active");
                                   ("like", VStr "a%")])]) constructor
    = (Throw (TypeError msg), set_where ["status != 'banned'"] constructor).
Proof.
  apply (where_fails_midway "status" "in" (VStr "active")
           [("ne", VStr "banned")] [("like", VStr "a%")] constructor).
  - repeat constructor; discriminate.
  - reflexivity.
  - reflexivity.
Defined.



(* ================================================================= *)
(** ** Further properties of the finders *)

Lemma execute_query (d : Connection.driver) (q : query) :
  execute d q = Connection.query d (VStr (Grammar.statement q)) VUndefined.
Proof. unfold execute. now rewrite build_statement. Qed.

(** Once [connect] gives a client, a [query] without options has sent its
    one request whatever the client answered. *)
Lemma query_plain_state (d : Connection.driver) (sql : string)
  (s : Connection.state) :
  fst (Connection.connect d s) = Normal true ->
  snd (Connection.query d (VStr sql) VUndefined s)
  = sent_one (snd (Connection.connect d s)) (plain sql).
Proof.
  intros Hc.
  now rewrite (query_exchange d (VStr sql) VUndefined s VUndefined VUndefined
                 Hc eq_refl eq_refl).
Qed.

Lemma query_plain_answer (d : Connection.driver) (sql : string)
  (s : Connection.state) (answer : value) :
  fst (Connection.connect d s) = Normal true ->
  Connection.client_query d (Connection.sent s) (plain sql)
  = Normal (Connection.mkResultSet (Normal answer)) ->
  Connection.query d (VStr sql) VUndefined s
  = (Normal (Connection.Json answer),
     sent_one (snd (Connection.connect d s)) (plain sql)).
Proof.
  intros Hc Hq.
  destruct (connect_ready d s Hc) as [_ [Hs _]].
  rewrite (query_exchange d (VStr sql) VUndefined s VUndefined VUndefined
             Hc eq_refl eq_refl).
  cbn [or_else truthy]. fold (plain sql). rewrite Hs, Hq. reflexivity.
Qed.

(** X13.  When the client answers, [findAll] has sent exactly one request,
    the statement of its builder in JSON format, and returns the [data] of
    the answer, or an empty array when the answer has no [data] or a falsy
    one: it never returns [undefined] or [null]. *)
Theorem findAll_answer (d : Connection.driver) (m : Schema.model)
  (options answer data : value) (q : query) (s : Connection.state) :
  fst (Connection.connect d s) = Normal true ->
  Model.findAll_builder m (options_or_empty options) constructor
  = (Normal tt, q) ->
  Connection.client_query d (Connection.sent s) (plain (Grammar.statement q))
  = Normal (Connection.mkResultSet (Normal answer)) ->
  get answer "data" = Normal data ->
  Model.findAll d m options s
  = (Normal (if truthy data then data else VArr []),
     sent_one (snd (Connection.connect d s)) (plain (Grammar.statement q)))
  /\ truthy (if truthy data then data else VArr []) = true.
Proof.
  intros Hc Hb Hq Hd. split.
  - unfold Model.findAll. fold (options_or_empty options). rewrite Hb.
    unfold bind. rewrite execute_query.
    rewrite (query_plain_answer d _ s answer Hc Hq).
    unfold lift, ret. cbn [Model.data_of]. now rewrite Hd.
  - now destruct (truthy data) eqn:E.
Qed.

Lemma findAll_answer_witness :
  let d := Connection.mkDriver (fun _ => Normal tt)
             (fun _ _ => Normal (Connection.mkResultSet
                                   (Normal (VObj [("rows", VNum 0)])))) in
  let m := Schema.mkModel "User" (VStr "users") (VObj []) (VObj []) in
  let s := Connection.mkState (VObj []) false false [] in
  fst (Model.findAll d m VUndefined s) = Normal (VArr []).
Proof.
  intros d m s.
  destruct (findAll_answer d m VUndefined (VObj [("rows", VNum 0)])
              VUndefined
              (snd (Model.findAll_builder m (VObj []) constructor)) s
              eq_refl eq_refl eq_refl eq_refl) as [H _].
  now rewrite H.
Defined.






(** *** [getPrimaryKey], [findByPk], [count] *)




Lemma set_prop_twice (k : string) (v w : value)
  (props : list (string * value)) :
  set_prop k v (set_prop k w props) = set_prop k v props.
Proof.
  induction props as [|[k' v'] props IH]; cbn [set_prop].
  - now rewrite String.eqb_refl.
  - destruct (String.eqb k k') eqn:E; cbn [set_prop]; rewrite E;
      [reflexivity | now rewrite IH].
Qed.

(** [findAll] reads its options one property at a time. *)
Lemma findAll_reads_properties (d : Connection.driver) (m : Schema.model)
  (p1 p2 : list (string * value)) (s : Connection.state) :
  (forall k, lookup k p1 = lookup k p2) ->
  Model.findAll d m (VObj p1) s = Model.findAll d m (VObj p2) s.
Proof.
  intros H. unfold Model.findAll, Model.findAll_builder. cbn [get].
  now rewrite !H.
Qed.

(** With a client at hand, [findAll] has sent the statement of its builder
    and nothing else, whatever came back. *)
Lemma findAll_sends_one (d : Connection.driver) (m : Schema.model)
  (options : value) (q : query) (s : Connection.state) :
  fst (Connection.connect d s) = Normal true ->
  Model.findAll_builder m (options_or_empty options) constructor
  = (Normal tt, q) ->
  snd (Model.findAll d m options s)
  = sent_one (snd (Connection.connect d s)) (plain (Grammar.statement q)).
Proof.
  intros Hc Hb. unfold Model.findAll. fold (options_or_empty options).
  rewrite Hb. unfold bind. rewrite execute_query.
  pose proof (query_plain_state d (Grammar.statement q) s Hc) as Hq.
  destruct (Connection.query d (VStr (Grammar.statement q)) VUndefined s)
    as [[r|e] s1]; cbn [snd] in Hq; subst s1; [|reflexivity].
  unfold lift, ret. now destruct (Model.data_of r).
Qed.

Lemma findOne_state (d : Connection.driver) (m : Schema.model)
  (options : value) (s : Connection.state) :
  snd (Model.findOne d m options s)
  = snd (Model.findAll d m (with_limit_1 options) s).
Proof.
  unfold Model.findOne, with_limit_1, bind, lift, ret.
  replace (Model.spread match options with
                        | VUndefined => VObj []
                        | _ => options
                        end)
    with (Model.spread options) by now destruct options.
  destruct (Model.findAll d m _ s) as [[rows|e] s1]; [|reflexivity].
  now destruct (Model.index0 rows).
Qed.

Lemma statement_by_key (table : value) (condition : string) :
  Grammar.statement
    (mkQuery [VStr "*"] table [] [condition] [] [] [] (VNum 1) VNull)
  = "SELECT * FROM " ++ toString table ++ " WHERE " ++ condition
      ++ " LIMIT 1".
Proof.
  unfold Grammar.statement, Grammar.before_where, Grammar.after_where,
    Grammar.select_from.
  cbn [q_select q_from q_joins q_where q_groupBy q_having q_orderBy q_limit
       q_offset Grammar.joins_text fold_right Grammar.where_text
       Grammar.group_text Grammar.having_text Grammar.order_text
       Grammar.limit_text Grammar.offset_text Js.join map element_string
       String.concat].
  change (toString (VNum 1)) with "1". change (toString (VStr "*")) with "*".
  rewrite ?append_nil_r, ?append_assoc. cbn [append].
  rewrite ?append_nil_r, ?append_assoc. reflexivity.
Qed.

(** The builder behind [findByPk] called without options. *)
Lemma findByPk_builder (m : Schema.model) (pk : string) (id : value) :
  Grammar.scalar id = true ->
  Model.findAll_builder m
    (VObj [("where", VObj [(pk, id)]); ("limit", VNum 1)]) constructor
  = (Normal tt,
     mkQuery [VStr "*"] (Schema.tableName m) []
             [pk ++ " = '" ++ toString id ++ "'"] [] [] [] (VNum 1) VNull).
Proof.
  intros Hid. unfold Model.findAll_builder.
  cbn [get lookup String.eqb Ascii.eqb Bool.eqb or_else truthy Z.eqb negb].
  assert (Hw : forall q0, where_ (VObj [(pk, id)]) q0
               = (Normal tt, set_where
                    (q_where q0 ++ [pk ++ " = '" ++ toString id ++ "'"]) q0)).
  { intro q0. rewrite where_single.
    destruct id; try discriminate; reflexivity. }
  unfold bind, lift.
  cbn [or_else truthy Z.eqb negb select from modify String.eqb Ascii.eqb
       Bool.eqb].
  rewrite Hw. reflexivity.
Qed.

(** X16.  [findByPk] looks for the one row whose primary key equals [id]:
    a [where] or a [limit] among its options is discarded, and called
    without options on a connection that has a client it sends
    [SELECT * FROM <table> WHERE <key> = '<id>' LIMIT 1]. *)
Theorem findByPk_statement (d : Connection.driver) (m : Schema.model)
  (id : value) (pk : string) (s : Connection.state) :
  ModelOps.getPrimaryKey m = Normal pk ->
  Grammar.scalar id = true ->
  fst (Connection.connect d s) = Normal true ->
  Connection.sent (snd (ModelOps.findByPk d m id VUndefined s))
  = (Connection.sent s
       ++ [plain ("SELECT * FROM " ++ toString (Schema.tableName m)
                    ++ " WHERE " ++ pk ++ " = '" ++ toString id
                    ++ "' LIMIT 1")])%list
  /\ (forall props w,
        ModelOps.findByPk d m id (VObj (set_prop "where" w props)) s
        = ModelOps.findByPk d m id (VObj props) s)
  /\ (forall props n,
        ModelOps.findByPk d m id (VObj (set_prop "limit" n props)) s
        = ModelOps.findByPk d m id (VObj props) s).
Proof.
  intros Hpk Hid Hc. split; [|split].
  - unfold ModelOps.findByPk, bind, lift. rewrite Hpk.
    cbn [Model.spread entries set_prop].
    rewrite findOne_state.
    unfold with_limit_1.
    cbn [Model.spread entries set_prop String.eqb Ascii.eqb Bool.eqb].
    rewrite (findAll_sends_one d m
               (VObj [("where", VObj [(pk, id)]); ("limit", VNum 1)]) _ s Hc
               (findByPk_builder m pk id Hid)).
    destruct (connect_ready d s Hc) as [_ [Hs _]].
    unfold sent_one. cbn [Connection.sent]. rewrite Hs.
    rewrite statement_by_key. do 2 f_equal. unfold plain. do 2 f_equal.
    now rewrite ?append_assoc.
  - intros props w. unfold ModelOps.findByPk, bind, lift. rewrite Hpk.
    cbn [Model.spread entries]. now rewrite set_prop_twice.
  - intros props n. unfold ModelOps.findByPk, bind, lift. rewrite Hpk.
    cbn [Model.spread entries]. unfold Model.findOne.
    cbn [Model.spread entries]. unfold bind.
    rewrite (findAll_reads_properties d m
               (set_prop "limit" (VNum 1)
                  (set_prop "where" (VObj [(pk, id)])
                     (set_prop "limit" n props)))
               (set_prop "limit" (VNum 1)
                  (set_prop "where" (VObj [(pk, id)]) props)) s);
      [reflexivity|].
    intro k. destruct (String.eqb_spec k "limit") as [->|Hk].
    + now rewrite !lookup_set_prop_same.
    + rewrite !(lookup_set_prop_other "limit" k) by assumption.
      destruct (String.eqb_spec k "where") as [->|Hkw].
      * now rewrite !lookup_set_prop_same.
      * rewrite !(lookup_set_prop_other "where" k) by assumption.
        now apply lookup_set_prop_other.
Qed.

Lemma findByPk_statement_witness :
  let d := Connection.mkDriver (fun _ => Normal tt)
             (fun _ _ => Normal (Connection.mkResultSet
                                   (Normal (VObj [("data", VArr [])])))) in
  let m := Schema.mkModel "User" (VStr "users")
             (VObj [("user_id", VObj [("type", VStr "UInt32");
                                      ("primaryKey", VBool true)])])
             (VObj []) in
  let s := Connection.mkState (VObj []) false false [] in
  Connection.sent (snd (ModelOps.findByPk d m (VNum 7) VUndefined s))
  = [plain "SELECT * FROM users WHERE user_id = '7' LIMIT 1"].
Proof.
  intros d m s.
  apply (findByPk_statement d m (VNum 7) "user_id" s); reflexivity.
Defined.

Lemma statement_count (table : value) :
  Grammar.statement
    (mkQuery [VStr ("COUNT(" ++ "*) as count")] table [] [] [] [] [] VNull VNull)
  = ("SELECT COUNT(" ++ "*) as count FROM ") ++ toString table.
Proof.
  unfold Grammar.statement, Grammar.before_where, Grammar.after_where,
    Grammar.select_from.
  cbn [q_select q_from q_joins q_where q_groupBy q_having q_orderBy q_limit
       q_offset Grammar.joins_text fold_right Grammar.where_text
       Grammar.group_text Grammar.having_text Grammar.order_text
       Grammar.limit_text Grammar.offset_text Js.join map element_string
       String.concat].
  change (toString (VStr ("COUNT(" ++ "*) as count"))) with ("COUNT(" ++ "*) as count").
  rewrite ?append_nil_r, ?append_assoc. reflexivity.
Qed.

Lemma count_sends_one (d : Connection.driver) (m : Schema.model)
  (options : value) (q : query) (s : Connection.state) :
  fst (Connection.connect d s) = Normal true ->
  ModelOps.count_builder m (options_or_empty options) constructor
  = (Normal tt, q) ->
  snd (ModelOps.count d m options s)
  = sent_one (snd (Connection.connect d s)) (plain (Grammar.statement q)).
Proof.
  intros Hc Hb. unfold ModelOps.count. fold (options_or_empty options).
  rewrite Hb. unfold bind. rewrite execute_query.
  pose proof (query_plain_state d (Grammar.statement q) s Hc) as Hq.
  destruct (Connection.query d (VStr (Grammar.statement q)) VUndefined s)
    as [[r|e] s1]; cbn [snd] in Hq; subst s1; [|reflexivity].
  unfold lift, ret.
  destruct (Model.data_of r) as [data|e]; [|reflexivity].
  destruct (Model.index0 data) as [row|e]; [|reflexivity].
  now destruct (ModelOps.count_of row).
Qed.

Lemma count_builder_plain (m : Schema.model) (props : list (string * value)) :
  truthy (lookup "where" props) = false ->
  ModelOps.count_builder m (VObj props) constructor
  = (Normal tt,
     mkQuery [VStr ("COUNT(" ++ "*) as count")] (Schema.tableName m)
             [] [] [] [] [] VNull VNull).
Proof.
  intros Hw. unfold ModelOps.count_builder. cbn [get].
  unfold bind, lift. cbn [select from modify String.eqb Ascii.eqb Bool.eqb].
  now rewrite Hw.
Qed.

(** X17.  [count] takes from its options the [where] and nothing else:
    options that agree on [where] give the same call, so a [limit], an
    [offset] or an [orderBy] has no effect on it; with no [where] the
    statement it sends is [SELECT COUNT(...) as count FROM <table>], the argument of COUNT being the star. *)
Theorem count_reads_only_where (d : Connection.driver) (m : Schema.model)
  (p1 p2 : list (string * value)) (s : Connection.state) :
  lookup "where" p1 = lookup "where" p2 ->
  ModelOps.count d m (VObj p1) s = ModelOps.count d m (VObj p2) s
  /\ (truthy (lookup "where" p1) = false ->
      fst (Connection.connect d s) = Normal true ->
      Connection.sent (snd (ModelOps.count d m (VObj p1) s))
      = (Connection.sent s
           ++ [plain (("SELECT COUNT(" ++ "*) as count FROM ")
                        ++ toString (Schema.tableName m))])%list).
Proof.
  intros Hw. split.
  - unfold ModelOps.count, ModelOps.count_builder. cbn [get].
    now rewrite Hw.
  - intros Hnone Hc.
    rewrite (count_sends_one d m (VObj p1) _ s Hc
               (count_builder_plain m p1 Hnone)).
    destruct (connect_ready d s Hc) as [_ [Hs _]].
    rewrite statement_count. unfold sent_one. cbn [Connection.sent].
    now rewrite Hs.
Qed.

Lemma count_reads_only_where_witness :
  let d := Connection.mkDriver (fun _ => Normal tt)
             (fun _ _ => Normal (Connection.mkResultSet
                                   (Normal (VObj [("data", VArr [])])))) in
  let m := Schema.mkModel "User" (VStr "users") (VObj []) (VObj []) in
  let s := Connection.mkState (VObj []) false false [] in
  ModelOps.count d m (VObj [("limit", VNum 5); ("orderBy", VStr "name")]) s
  = ModelOps.count d m (VObj []) s.
Proof.
  intros d m s.
  apply (count_reads_only_where d m
           [("limit", VNum 5); ("orderBy", VStr "name")] [] s).
  reflexivity.
Defined.

(** X18.  From the answer of the client [count] returns the [count] of the
    first row, and [0] when there is no row or that count is falsy; an
    answer without [data] makes it throw a TypeError, where [findAll]
    returns an empty array. *)
Theorem count_answer (d : Connection.driver) (m : Schema.model)
  (options answer : value) (q : query) (s : Connection.state) :
  fst (Connection.connect d s) = Normal true ->
  ModelOps.count_builder m (options_or_empty options) constructor
  = (Normal tt, q) ->
  Connection.client_query d (Connection.sent s) (plain (Grammar.statement q))
  = Normal (Connection.mkResultSet (Normal answer)) ->
  (get answer "data" = Normal (VArr []) ->
   fst (ModelOps.count d m options s) = Normal (VNum 0))
  /\ (forall row rest n,
        get answer "data" = Normal (VArr (VObj row :: rest)) ->
        lookup "count" row = n ->
        fst (ModelOps.count d m options s)
        = Normal (if truthy n then n else VNum 0))
  /\ (get answer "data" = Normal VUndefined ->
      exists msg, fst (ModelOps.count d m options s) = Throw (TypeError msg)).
Proof.
  intros Hc Hb Hq.
  assert (Hrun : ModelOps.count d m options s
                 = (data <- lift (Model.data_of (Connection.Json answer)) ;;
                    row <- lift (Model.index0 data) ;;
                    n <- lift (ModelOps.count_of row) ;;
                    ret (or_else n (VNum 0)))
                     (sent_one (snd (Connection.connect d s))
                               (plain (Grammar.statement q)))).
  { unfold ModelOps.count. fold (options_or_empty options). rewrite Hb.
    unfold bind at 1. rewrite execute_query.
    now rewrite (query_plain_answer d _ s answer Hc Hq). }
  rewrite Hrun. unfold bind, lift, ret. cbn [Model.data_of].
  split; [|split].
  - intros ->. reflexivity.
  - intros row rest n -> <-. reflexivity.
  - intros ->. eexists. reflexivity.
Qed.

Lemma count_answer_witness :
  let d := Connection.mkDriver (fun _ => Normal tt)
             (fun _ _ => Normal (Connection.mkResultSet
                                   (Normal (VObj [("rows", VNum 0)])))) in
  let m := Schema.mkModel "User" (VStr "users") (VObj []) (VObj []) in
  let s := Connection.mkState (VObj []) false false [] in
  exists msg, fst (ModelOps.count d m VUndefined s) = Throw (TypeError msg).
Proof.
  intros d m s.
  destruct (count_answer d m VUndefined (VObj [("rows", VNum 0)])
              (snd (ModelOps.count_builder m (VObj []) constructor)) s
              eq_refl eq_refl eq_refl) as [_ [_ H]].
  apply H. reflexivity.
Defined.

(** *** [create], [bulkCreate] and the associations *)

Lemma insert_exchange (d : Connection.driver)
  (client_insert : Adapter.insertion -> completion value)
  (table data options format : value) (s : Connection.state) :
  fst (Connection.connect d s) = Normal true ->
  get (options_or_empty options) "format" = Normal format ->
  Adapter.insert d client_insert table data options s
  = (match client_insert
             (Adapter.mkInsertion table (Adapter.as_rows data)
                                  (or_else format (VStr "JSON"))) with
     | Normal ack => Normal ack
     | Throw e => Throw (Error ("Insert failed: " ++ message e))
     end, snd (Connection.connect d s)).
Proof.
  intros Hc Hf. unfold Adapter.insert. fold (options_or_empty options).
  unfold bind, try_catch, lift, ret, throw.
  destruct (Connection.connect d s) as [[c|e'] s1]; cbn [fst snd] in *;
    [|discriminate].
  injection Hc as ->. rewrite Hf.
  now destruct (client_insert _).
Qed.


(** [bulkCreate] hands its records to [insert] and returns them as
    they were given, not the client's acknowledgement; a rejection by the
    client comes back as
    [Failed to bulk create <name>: Insert failed: <message>]. *)
Theorem bulkCreate_result (d : Connection.driver)
  (client_insert : Adapter.insertion -> completion value)
  (m : Schema.model) (records options format : value)
  (s : Connection.state) :
  fst (Connection.connect d s) = Normal true ->
  get (options_or_empty options) "format" = Normal format ->
  let rows := Adapter.mkInsertion (Schema.tableName m)
                (Adapter.as_rows records) (or_else format (VStr "JSON")) in
  (forall ack, client_insert rows = Normal ack ->
     fst (ModelOps.bulkCreate d client_insert m records options s)
     = Normal records)
  /\ (forall e, client_insert rows = Throw e ->
        fst (ModelOps.bulkCreate d client_insert m records options s)
        = Throw (Error ("Failed to bulk create " ++ Schema.name m
                          ++ ": Insert failed: " ++ message e))).
Proof.
  intros Hc Hf rows.
  assert (Hf' : get (options_or_empty (options_or_empty options)) "format"
                = Normal format) by (now destruct options).
  unfold ModelOps.bulkCreate. fold (options_or_empty options).
  unfold try_catch, bind, ret, throw.
  rewrite (insert_exchange d client_insert (Schema.tableName m) records
             (options_or_empty options) format s Hc Hf').
  fold rows. split.
  - intros ack ->. reflexivity.
  - intros e ->. reflexivity.
Qed.

Lemma bulkCreate_result_witness :
  let d := Connection.mkDriver (fun _ => Normal tt)
             (fun _ _ => Throw (Error "unused")) in
  let m := Schema.mkModel "Event" (VStr "events") (VObj []) (VObj []) in
  let s := Connection.mkState (VObj []) false false [] in
  let reject := fun _ : Adapter.insertion =>
                  @Throw value (Error "Unknown column") in
  fst (ModelOps.bulkCreate d reject m (VArr [VObj [("id", VNum 1)]])
         VUndefined s)
  = Throw (Error "Failed to bulk create Event: Insert failed: Unknown column").
Proof.
  intros d m s reject.
  destruct (bulkCreate_result d reject m (VArr [VObj [("id", VNum 1)]])
              VUndefined VUndefined s eq_refl eq_refl) as [_ H].
  apply (H (Error "Unknown column")). reflexivity.
Defined.

Lemma map_get_set_same {V} (k : string) (v : V) (m : list (string * V)) :
  ModelOps.map_get k (ModelOps.map_set k v m) = Some v.
Proof.
  induction m as [|[k' v'] m IH]; cbn [ModelOps.map_set ModelOps.map_get].
  - now rewrite String.eqb_refl.
  - destruct (String.eqb k k') eqn:E; cbn [ModelOps.map_get]; rewrite E;
      [reflexivity | exact IH].
Qed.

Lemma map_get_set_other {V} (k k0 : string) (v : V) (m : list (string * V)) :
  k0 <> k ->
  ModelOps.map_get k0 (ModelOps.map_set k v m) = ModelOps.map_get k0 m.
Proof.
  intros Hne. induction m as [|[k' v'] m IH];
    cbn [ModelOps.map_set ModelOps.map_get].
  - apply String.eqb_neq in Hne. now rewrite Hne.
  - destruct (String.eqb_spec k k') as [->|Hk]; cbn [ModelOps.map_get].
    + apply String.eqb_neq in Hne. now rewrite Hne.
    + now rewrite IH.
Qed.

Lemma map_set_length {V} (k : string) (v : V) (m : list (string * V)) :
  ModelOps.map_get k m <> None ->
  List.length (ModelOps.map_set k v m) = List.length m.
Proof.
  induction m as [|[k' v'] m IH]; cbn [ModelOps.map_set ModelOps.map_get];
    [congruence|].
  destruct (String.eqb k k'); intros H; cbn [List.length];
    [reflexivity | now rewrite IH].
Qed.

(** X20.  A model keeps one association per associated model name: after
    [hasMany], [belongsTo] or [hasOne] the entry under the name of the
    associated model is the new association, the entries under other names
    are untouched, and an earlier association with a model of the same name
    is replaced rather than kept beside it. *)
Theorem associate_last_wins (type options : value) (target : Schema.model)
  (associations : list (string * ModelOps.association)) :
  ModelOps.map_get (Schema.name target)
    (ModelOps.associate type target options associations)
  = Some (ModelOps.mkAssociation type target (options_or_empty options))
  /\ (forall k, k <> Schema.name target ->
        ModelOps.map_get k
          (ModelOps.associate type target options associations)
        = ModelOps.map_get k associations)
  /\ (ModelOps.map_get (Schema.name target) associations <> None ->
      List.length (ModelOps.associate type target options associations)
      = List.length associations)
  /\ ModelOps.map_get (Schema.name target)
       (ModelOps.hasOne target options
          (ModelOps.hasMany target options associations))
     = Some (ModelOps.mkAssociation (VStr "hasOne") target
               (options_or_empty options)).
Proof.
  unfold ModelOps.hasOne, ModelOps.hasMany, ModelOps.associate.
  fold (options_or_empty options).
  split; [|split; [|split]].
  - apply map_get_set_same.
  - intros k Hk. now apply map_get_set_other.
  - apply map_set_length.
  - apply map_get_set_same.
Qed.

(* ================================================================= *)
(** ** Further properties of schema generation *)

Lemma column_of_valid (k : string) (definition : value) :
  valid_definition definition = true ->
  exists column,
    Schema.generateColumnDefinition k definition = Normal column
    /\ get definition "primaryKey" = Normal (flag definition)
    /\ exists ix, get definition "index" = Normal ix.
Proof.
  destruct definition; try discriminate; cbn [valid_definition]; intros H.
  - eexists. split; [reflexivity|]. split; [reflexivity|].
    eexists. reflexivity.
  - cbn [Schema.generateColumnDefinition]. rewrite H.
    eexists. split; [reflexivity|]. split; [reflexivity|].
    eexists. reflexivity.
Qed.

(** The attribute loop on valid definitions: one column per attribute, in
    order. *)
Lemma process_attributes_columns (es : list (string * value))
  (l : Schema.locals) :
  Forall (fun a => valid_definition (snd a) = true) es ->
  exists cols ixs,
    Schema.process_attributes es l
    = Normal (Schema.mkLocals (Schema.columns l ++ cols) ixs
                (last_flagged es (Schema.primaryKey l)))
    /\ Forall2 (fun a column =>
                  Schema.generateColumnDefinition (fst a) (snd a)
                  = Normal column) es cols.
Proof.
  intros Hes. revert l.
  induction Hes as [|[k definition] es Hd Hes IH]; intro l.
  - exists [], (Schema.indexes l). rewrite app_nil_r.
    split; [now destruct l | constructor].
  - cbn [fst snd] in *.
    destruct (column_of_valid k definition Hd)
      as [column [Hcol [Hpk [ix Hix]]]].
    cbn [Schema.process_attributes]. rewrite Hcol, Hpk, Hix.
    edestruct IH as [cols [ixs [-> Hcols]]].
    exists (column :: cols). eexists. split.
    + cbn [Schema.columns Schema.primaryKey]. rewrite <- app_assoc.
      reflexivity.
    + now constructor.
Qed.

Lemma process_attributes_app (es1 es2 : list (string * value))
  (l : Schema.locals) :
  Schema.process_attributes (es1 ++ es2) l
  = Schema.bindc (Schema.process_attributes es1 l)
      (fun l1 => Schema.process_attributes es2 l1).
Proof.
  revert l. induction es1 as [|[k definition] es1 IH]; intro l;
    [reflexivity|].
  cbn [app Schema.process_attributes].
  destruct (Schema.generateColumnDefinition k definition); [|reflexivity].
  destruct (get definition "primaryKey"); [|reflexivity].
  destruct (get definition "index"); [|reflexivity].
  apply IH.
Qed.

(** X21.  An attribute whose definition is an object without a truthy
    [type] makes [generateCreateTableSQL] throw
    [Data type is required for field <name>], naming the first such
    attribute; no statement is produced, whatever the attributes after
    it. *)
Theorem missing_type_reported (m : Schema.model) (opts : value)
  (before after : list (string * value)) (field : string)
  (props : list (string * value)) :
  Schema.attributes m = VObj (before ++ (field, VObj props) :: after) ->
  Forall (fun a => valid_definition (snd a) = true) before ->
  truthy (lookup "type" props) = false ->
  Schema.generateCreateTableSQL m opts
  = Throw (Error ("Data type is required for field " ++ field)).
Proof.
  intros Ha Hbefore Htype. unfold Schema.generateCreateTableSQL.
  rewrite Ha. cbn [entries Schema.bindc]. rewrite process_attributes_app.
  destruct (process_attributes_columns before (Schema.mkLocals [] [] VNull)
              Hbefore) as [cols [ixs [-> _]]].
  cbn [Schema.bindc Schema.process_attributes Schema.generateColumnDefinition].
  now rewrite Htype.
Qed.

Lemma missing_type_reported_witness :
  Schema.generateCreateTableSQL
    (Schema.mkModel "User" (VStr "users")
       (VObj [("id", VStr "UInt32");
              ("name", VObj [("comment", VStr "display name")]);
              ("email", VStr "String")])
       (VObj []))
    VUndefined
  = Throw (Error "Data type is required for field name").
Proof.
  apply (missing_type_reported _ VUndefined [("id", VStr "UInt32")]
           [("email", VStr "String")] "name"
           [("comment", VStr "display name")]).
  - reflexivity.
  - repeat constructor.
  - reflexivity.
Defined.

(** X22.  On valid attributes the statement is [CREATE TABLE], then
    [IF NOT EXISTS] unless [options.ifNotExists] is [false], the table
    name, one line per attribute holding its column definition, in the
    order of the attributes and separated by commas, and the ENGINE,
    ORDER BY and SETTINGS clauses. *)
Theorem create_table_statement (m : Schema.model) (opts ifNotExists : value)
  (attrs os : list (string * value)) :
  Schema.attributes m = VObj attrs ->
  Schema.options m = VObj os ->
  get (options_or_empty opts) "ifNotExists" = Normal ifNotExists ->
  Forall valid_attribute attrs ->
  exists cols,
    Forall2 (fun a column =>
               Schema.generateColumnDefinition (fst a) (snd a)
               = Normal column) attrs cols
    /\ Schema.generateCreateTableSQL m opts
       = Normal ("CREATE TABLE"
                   ++ (if Schema.is_not_false ifNotExists
                       then " IF NOT EXISTS" else "")
                   ++ " " ++ toString (Schema.tableName m) ++ " ("
                   ++ Schema.nl ++ "  "
                   ++ String.concat ("," ++ Schema.nl ++ "  ") cols
                   ++ Schema.nl ++ ") ENGINE = " ++ engine_of os
                   ++ Schema.nl ++ "ORDER BY " ++ order_key attrs os
                   ++ settings_text os).
Proof.
  intros Ha Ho Hine Hv.
  assert (Hdefs : Forall (fun a => valid_definition (snd a) = true) attrs).
  { rewrite Forall_forall in *. intros a Hin. now apply Hv. }
  destruct (process_attributes_columns attrs (Schema.mkLocals [] [] VNull)
              Hdefs) as [cols [ixs [Hp Hcols]]].
  exists cols. split; [exact Hcols|].
  unfold Schema.generateCreateTableSQL. rewrite Ha, Ho.
  cbn [entries Schema.bindc get]. rewrite Hp.
  cbn [Schema.bindc Schema.primaryKey Schema.columns app].
  rewrite last_flagged_spec. fold (options_or_empty opts). rewrite Hine.
  match goal with
  | |- context [Schema.bindc (if ?b then ?x else ?y) _] =>
      assert (Hclause : (if b then x else y)
                        = Normal ("ORDER BY " ++ order_key attrs os))
  end.
  { unfold order_key.
    destruct (filter flagged attrs) as [|pk pks] eqn:E.
    - cbn [truthy Schema.bindc].
      destruct (truthy (lookup "orderBy" os)); [reflexivity|].
      now destruct attrs as [|[k definition] attrs].
    - cbn [truthy toString].
      pose proof (last_flagged_name attrs pk pks Hv E) as Hne.
      apply String.eqb_neq in Hne. now rewrite Hne. }
  rewrite Hclause. cbn [Schema.bindc]. rewrite order_clause_nonempty.
  unfold settings_text, engine_of.
  destruct (Schema.is_not_false ifNotExists);
    (destruct (lookup "settings" os) as [| |b|z|t|xs|ps];
     cbn [truthy entries Schema.bindc];
     try destruct b; try destruct (negb (Z.eqb z 0));
     try destruct (negb (String.eqb t ""));
     rewrite ?append_assoc, ?append_nil_r; cbn [append];
     rewrite ?append_assoc, ?append_nil_r; reflexivity).
Qed.

Lemma create_table_statement_witness :
  exists cols,
    Forall2 (fun a column =>
               Schema.generateColumnDefinition (fst a) (snd a)
               = Normal column)
            [("id", VObj [("type", VStr "UInt32"); ("primaryKey", VBool true)]);
             ("created_at", VObj [("type", VStr "DateTime");
                                  ("defaultValue", VStr "now()")])]
            cols
    /\ Schema.generateCreateTableSQL
         (Schema.mkModel "Event" (VStr "events")
            (VObj [("id", VObj [("type", VStr "UInt32");
                                ("primaryKey", VBool true)]);
                   ("created_at", VObj [("type", VStr "DateTime");
                                        ("defaultValue", VStr "now()")])])
            (VObj []))
         (VObj [("ifNotExists", VBool false)])
       = Normal ("CREATE TABLE events (" ++ Schema.nl ++ "  "
                   ++ String.concat ("," ++ Schema.nl ++ "  ") cols
                   ++ Schema.nl ++ ") ENGINE = MergeTree()" ++ Schema.nl
                   ++ "ORDER BY id").
Proof.
  destruct (create_table_statement
              (Schema.mkModel "Event" (VStr "events")
                 (VObj [("id", VObj [("type", VStr "UInt32");
                                     ("primaryKey", VBool true)]);
                        ("created_at", VObj [("type", VStr "DateTime");
                                             ("defaultValue", VStr "now()")])])
                 (VObj []))
              (VObj [("ifNotExists", VBool false)]) (VBool false)
              [("id", VObj [("type", VStr "UInt32");
                            ("primaryKey", VBool true)]);
               ("created_at", VObj [("type", VStr "DateTime");
                                    ("defaultValue", VStr "now()")])]
              [] eq_refl eq_refl eq_refl) as [cols [Hcols Hsql]].
  - repeat constructor; discriminate.
  - exists cols. split; [exact Hcols | exact Hsql].
Defined.

(** *** The [index] flag *)

Lemma lookup_without (k0 k : string) (props : list (string * value)) :
  k <> k0 -> lookup k (without k0 props) = lookup k props.
Proof.
  intros Hne. unfold without.
  induction props as [|[k' v] props IH]; [reflexivity|].
  cbn [filter fst]. destruct (String.eqb_spec k' k0) as [->|Hk];
    cbn [negb lookup].
  - apply String.eqb_neq in Hne. now rewrite Hne.
  - now rewrite IH.
Qed.

Lemma column_without_index (k : string) (definition : value) :
  Schema.generateColumnDefinition k (without_index definition)
  = Schema.generateColumnDefinition k definition.
Proof.
  destruct definition; try reflexivity.
  cbn [without_index Schema.generateColumnDefinition].
  rewrite !(lookup_without "index") by discriminate. reflexivity.
Qed.

Lemma flag_without_index (definition : value) :
  get (without_index definition) "primaryKey" = get definition "primaryKey".
Proof.
  destruct definition; try reflexivity.
  cbn [without_index get]. now rewrite (lookup_without "index") by discriminate.
Qed.

Lemma index_read_without_index (definition : value) :
  (exists ix, get definition "index" = Normal ix)
  <-> (exists ix, get (without_index definition) "index" = Normal ix).
Proof.
  destruct definition; cbn [without_index get]; split; intros [ix H];
    try discriminate; eexists; reflexivity.
Qed.

(** The loops over the attributes with and without their [index] flags end
    alike: with the same error, or with the same columns and primary key. *)
Lemma process_attributes_without_index (es : list (string * value))
  (l l' : Schema.locals) :
  Schema.columns l = Schema.columns l' ->
  Schema.primaryKey l = Schema.primaryKey l' ->
  match Schema.process_attributes es l,
        Schema.process_attributes (map strip_index es) l' with
  | Normal r, Normal r' =>
      Schema.columns r = Schema.columns r'
      /\ Schema.primaryKey r = Schema.primaryKey r'
  | Throw e, Throw e' => e = e'
  | _, _ => False
  end.
Proof.
  revert l l'. induction es as [|[k definition] es IH]; intros l l' Hc Hp.
  - cbn. now split.
  - cbn [map strip_index fst snd Schema.process_attributes].
    rewrite column_without_index, flag_without_index.
    destruct (Schema.generateColumnDefinition k definition) as [column|e];
      [|reflexivity].
    destruct (get definition "primaryKey") as [pk|e]; [|reflexivity].
    destruct definition;
      cbn [without_index get]; try reflexivity;
      apply IH; cbn [Schema.columns Schema.primaryKey];
      now rewrite ?Hc, ?Hp.
Qed.

(** X23.  The [index] flag of an attribute has no effect on the statement:
    [generateCreateTableSQL] returns the same result for a model and for
    the same model with every [index] property taken out of its attribute
    definitions. *)
Theorem index_flag_ignored (m : Schema.model) (opts : value)
  (attrs : list (string * value)) :
  Schema.attributes m = VObj attrs ->
  Schema.generateCreateTableSQL
    (Schema.mkModel (Schema.name m) (Schema.tableName m)
                    (VObj (map strip_index attrs)) (Schema.options m))
    opts
  = Schema.generateCreateTableSQL m opts.
Proof.
  intros Ha. unfold Schema.generateCreateTableSQL.
  cbn [Schema.attributes Schema.options Schema.tableName].
  rewrite Ha. cbn [entries Schema.bindc].
  pose proof (process_attributes_without_index attrs
                (Schema.mkLocals [] [] VNull) (Schema.mkLocals [] [] VNull)
                eq_refl eq_refl) as H.
  destruct (Schema.process_attributes attrs (Schema.mkLocals [] [] VNull))
    as [r|e];
    destruct (Schema.process_attributes (map strip_index attrs)
                (Schema.mkLocals [] [] VNull)) as [r'|e'];
    try contradiction; [|now subst].
  destruct H as [Hc Hp]. cbn [Schema.bindc]. rewrite Hc, Hp.
  replace (Schema.first_key (map strip_index attrs))
    with (Schema.first_key attrs)
    by (destruct attrs as [|[k definition] attrs]; reflexivity).
  reflexivity.
Qed.

Lemma index_flag_ignored_witness :
  Schema.generateCreateTableSQL
    (Schema.mkModel "User" (VStr "users")
       (VObj [("email", VObj [("type", VStr "String")])]) (VObj []))
    VUndefined
  = Schema.generateCreateTableSQL
      (Schema.mkModel "User" (VStr "users")
         (VObj [("email", VObj [("type", VStr "String");
                                ("index", VBool true)])]) (VObj []))
      VUndefined.
Proof.
  apply (index_flag_ignored
           (Schema.mkModel "User" (VStr "users")
              (VObj [("email", VObj [("type", VStr "String");
                                     ("index", VBool true)])]) (VObj []))
           VUndefined
           [("email", VObj [("type", VStr "String"); ("index", VBool true)])]).
  reflexivity.
Defined.

(* ================================================================= *)
(** ** Properties of the statements sent for a table *)

Lemma query_plain_failure (d : Connection.driver) (sql : string)
  (s : Connection.state) (e : error) :
  fst (Connection.connect d s) = Normal true ->
  Connection.client_query d (Connection.sent s) (plain sql) = Throw e ->
  Connection.query d (VStr sql) VUndefined s
  = (Throw (Error ("Query execution failed: " ++ message e)),
     sent_one (snd (Connection.connect d s)) (plain sql)).
Proof.
  intros Hc Hq.
  destruct (connect_ready d s Hc) as [_ [Hs _]].
  rewrite (query_exchange d (VStr sql) VUndefined s VUndefined VUndefined
             Hc eq_refl eq_refl).
  cbn [or_else truthy]. fold (plain sql). rewrite Hs, Hq. reflexivity.
Qed.

(** X24.  [createTable] sends the CREATE TABLE statement of the model.
    When the client rejects it, the failure is swallowed only if its
    message contains [already exists] and [options.force] is truthy;
    otherwise the error of [query] is thrown again as it is, with its
    [Query execution failed: ] prefix and no further one. *)
Theorem createTable_outcome (d : Connection.driver) (m : Schema.model)
  (options force : value) (sql : string) (s : Connection.state) (e : error) :
  fst (Connection.connect d s) = Normal true ->
  Schema.generateCreateTableSQL m (options_or_empty options) = Normal sql ->
  get (options_or_empty options) "force" = Normal force ->
  Connection.client_query d (Connection.sent s) (plain sql) = Throw e ->
  SchemaOps.createTable d m options s
  = ((if Grammar.occurs "already exists"
            ("Query execution failed: " ++ message e) && truthy force
      then Normal tt
      else Throw (Error ("Query execution failed: " ++ message e))),
     sent_one (snd (Connection.connect d s)) (plain sql)).
Proof.
  intros Hc Hsql Hforce Hq.
  unfold SchemaOps.createTable. fold (options_or_empty options).
  unfold bind, lift, try_catch, ret, throw. rewrite Hsql.
  rewrite (query_plain_failure d sql s e Hc Hq).
  cbn [message]. rewrite Hforce.
  destruct (Grammar.occurs "already exists"
              ("Query execution failed: " ++ message e));
    cbn [negb andb]; [|reflexivity].
  now destruct (truthy force).
Qed.

Lemma createTable_outcome_witness :
  let d := Connection.mkDriver (fun _ => Normal tt)
             (fun _ _ => Throw (Error "Table users already exists")) in
  let m := Schema.mkModel "User" (VStr "users")
             (VObj [("id", VStr "UInt32")]) (VObj []) in
  let s := Connection.mkState (VObj []) false false [] in
  fst (SchemaOps.createTable d m (VObj [("force", VBool true)]) s)
  = Normal tt
  /\ fst (SchemaOps.createTable d m VUndefined s)
     = Throw (Error "Query execution failed: Table users already exists").
Proof.
  intros d m s. split.
  - now rewrite (createTable_outcome d m (VObj [("force", VBool true)])
                   (VBool true) _ s (Error "Table users already exists")
                   eq_refl eq_refl eq_refl eq_refl).
  - now rewrite (createTable_outcome d m VUndefined VUndefined _ s
                   (Error "Table users already exists")
                   eq_refl eq_refl eq_refl eq_refl).
Defined.

(** X25.  [dropTable] sends [DROP TABLE IF EXISTS <name>], without
    [IF EXISTS] when [options.ifExists] is [false]; a rejection comes back
    with two prefixes,
    [Failed to drop table <name>: Query execution failed: ]. *)
Theorem dropTable_exchange (d : Connection.driver)
  (tableName options ifExists : value) (s : Connection.state) :
  fst (Connection.connect d s) = Normal true ->
  get (options_or_empty options) "ifExists" = Normal ifExists ->
  let sql := "DROP TABLE"
               ++ (if Schema.is_not_false ifExists then " IF EXISTS" else "")
               ++ " " ++ toString tableName in
  Connection.sent (snd (SchemaOps.dropTable d tableName options s))
  = (Connection.sent s ++ [plain sql])%list
  /\ (forall e,
        Connection.client_query d (Connection.sent s) (plain sql) = Throw e ->
        fst (SchemaOps.dropTable d tableName options s)
        = Throw (Error ("Failed to drop table " ++ toString tableName
                          ++ ": Query execution failed: " ++ message e)))
  /\ (forall answer,
        Connection.client_query d (Connection.sent s) (plain sql)
        = Normal (Connection.mkResultSet (Normal answer)) ->
        fst (SchemaOps.dropTable d tableName options s) = Normal tt).
Proof.
  intros Hc Hif sql.
  destruct (connect_ready d s Hc) as [_ [Hs _]].
  assert (Hsql : (if Schema.is_not_false ifExists
                  then "DROP TABLE" ++ " IF EXISTS" else "DROP TABLE")
                 ++ " " ++ toString tableName = sql).
  { subst sql. destruct (Schema.is_not_false ifExists); reflexivity. }
  unfold SchemaOps.dropTable. fold (options_or_empty options).
  unfold bind, lift, try_catch, ret, throw. rewrite Hif. cbv zeta.
  rewrite Hsql.
  pose proof (query_plain_state d sql s Hc) as Hstate.
  split; [|split].
  - destruct (Connection.query d (VStr sql) VUndefined s) as [[r|e] s1];
      cbn [snd] in *; subst s1; unfold sent_one; cbn; now rewrite Hs.
  - intros e Hq. now rewrite (query_plain_failure d sql s e Hc Hq).
  - intros answer Hq. now rewrite (query_plain_answer d sql s answer Hc Hq).
Qed.

Lemma dropTable_exchange_witness :
  let d := Connection.mkDriver (fun _ => Normal tt)
             (fun _ _ => Throw (Error "Unknown table")) in
  let s := Connection.mkState (VObj []) false false [] in
  fst (SchemaOps.dropTable d (VStr "tmp") (VObj [("ifExists", VBool false)]) s)
  = Throw (Error
      "Failed to drop table tmp: Query execution failed: Unknown table")
  /\ Connection.sent
       (snd (SchemaOps.dropTable d (VStr "tmp")
               (VObj [("ifExists", VBool false)]) s))
     = [plain "DROP TABLE tmp"].
Proof.
  intros d s.
  destruct (dropTable_exchange d (VStr "tmp")
              (VObj [("ifExists", VBool false)]) (VBool false) s
              eq_refl eq_refl) as [Hsent [Hfail _]].
  split.
  - apply (Hfail (Error "Unknown table")). reflexivity.
  - exact Hsent.
Defined.

(** X26.  [addColumn] builds the column definition before it touches the
    connection: a definition without a type makes it throw
    [Data type is required for field <column>], without the
    [Failed to add column: ] prefix and with nothing sent; otherwise it sends
    [ALTER TABLE <table> ADD COLUMN <definition>], and a rejection by the
    client comes back as
    [Failed to add column: Query execution failed: <message>]. *)
Theorem addColumn_exchange (d : Connection.driver) (tableName : value)
  (columnName : string) (definition : value) (s : Connection.state) :
  (forall e, Schema.generateColumnDefinition columnName definition = Throw e ->
     SchemaOps.addColumn d tableName columnName definition s = (Throw e, s))
  /\ (forall column,
        Schema.generateColumnDefinition columnName definition
        = Normal column ->
        fst (Connection.connect d s) = Normal true ->
        let sql := "ALTER TABLE " ++ toString tableName ++ " ADD COLUMN "
                     ++ column in
        Connection.sent
          (snd (SchemaOps.addColumn d tableName columnName definition s))
        = (Connection.sent s ++ [plain sql])%list
        /\ forall e,
             Connection.client_query d (Connection.sent s) (plain sql)
             = Throw e ->
             fst (SchemaOps.addColumn d tableName columnName definition s)
             = Throw (Error ("Failed to add column: Query execution failed: "
                               ++ message e))).
Proof.
  split.
  - intros e He. unfold SchemaOps.addColumn, bind, lift. now rewrite He.
  - intros column Hcol Hc sql.
    destruct (connect_ready d s Hc) as [_ [Hs _]].
    unfold SchemaOps.addColumn, bind, lift, try_catch, ret, throw.
    rewrite Hcol. cbv zeta. fold sql.
    pose proof (query_plain_state d sql s Hc) as Hstate. split.
    + destruct (Connection.query d (VStr sql) VUndefined s) as [[r|e] s1];
        cbn [snd] in *; subst s1; unfold sent_one; cbn; now rewrite Hs.
    + intros e Hq. now rewrite (query_plain_failure d sql s e Hc Hq).
Qed.

(* ================================================================= *)
(** ** Properties of the data types *)

(** X27.  The type strings the constructors build are recognised by the
    matching predicate, whatever their arguments: a [Decimal] is numeric, a
    [FixedString] a string, a [DateTime64] a date, an [Array] an array and
    a [Nullable] nullable. *)
Theorem constructed_types_recognised (a b : value) :
  DataTypes.isNumeric (VStr (DataTypes.Decimal a b)) = Normal true
  /\ DataTypes.isString (VStr (DataTypes.FixedString a)) = Normal true
  /\ DataTypes.isDate (VStr (DataTypes.DateTime64 a)) = Normal true
  /\ DataTypes.isArray (VStr (DataTypes.Array a)) = Normal true
  /\ DataTypes.isNullable (VStr (DataTypes.Nullable a)) = Normal true.
Proof. repeat split; reflexivity. Qed.


(* ================================================================= *)
(** ** Properties of join queries and of [sync] *)

Lemma add_includes_resolved (lower : string -> string) (m : Schema.model)
  (associations : list (string * ModelOps.association))
  (resolved : list (value * (ModelOps.association * string)))
  (rest : list value) (q : query) :
  Forall (fun r =>
            exists key,
              get (fst r) "model" = Normal key
              /\ Relations.find_association associations key
                 = Some (fst (snd r))
              /\ Relations.buildJoinCondition lower m (fst (snd r))
                 = Normal (snd (snd r))) resolved ->
  Relations.add_includes lower m associations (map fst resolved ++ rest) q
  = Relations.add_includes lower m associations rest
      (set_joins
         (q_joins q
            ++ map (fun r => mkJoin (VStr "LEFT")
                               (Schema.tableName
                                  (ModelOps.a_model (fst (snd r))))
                               (VStr (snd (snd r)))) resolved) q).
Proof.
  intros Hres. revert q.
  induction Hres as [|[include [a cond]] resolved [key [Hk [Hf Hc]]] Hres IH];
    intro q.
  - cbn [map app]. rewrite app_nil_r. now destruct q.
  - cbn [map app fst snd Relations.add_includes] in *.
    unfold bind at 1. unfold lift at 1. rewrite Hk, Hf.
    unfold bind at 1. unfold lift at 1. rewrite Hc.
    unfold bind at 1. cbn [leftJoin join modify].
    rewrite IH. cbn [q_joins set_joins]. rewrite <- app_assoc. reflexivity.
Qed.

(** X29.  [createJoinQuery] selects [*] from the table of the model and
    adds one LEFT JOIN per include, in the order of the includes, on the
    table of the association found under [include.model]; an include that
    names no association of the model makes it throw
    [Association <name> not found on <model>] and no builder is
    returned. *)
Theorem createJoinQuery_joins (lower : string -> string) (m : Schema.model)
  (associations : list (string * ModelOps.association))
  (resolved : list (value * (ModelOps.association * string))) :
  Forall (fun r =>
            exists key,
              get (fst r) "model" = Normal key
              /\ Relations.find_association associations key
                 = Some (fst (snd r))
              /\ Relations.buildJoinCondition lower m (fst (snd r))
                 = Normal (snd (snd r))) resolved ->
  Relations.createJoinQuery lower m associations (VArr (map fst resolved))
  = Normal (mkQuery [VStr "*"] (Schema.tableName m)
              (map (fun r => mkJoin (VStr "LEFT")
                                (Schema.tableName
                                   (ModelOps.a_model (fst (snd r))))
                                (VStr (snd (snd r)))) resolved)
              [] [] [] [] VNull VNull)
  /\ (forall include key rest,
        get include "model" = Normal key ->
        Relations.find_association associations key = None ->
        Relations.createJoinQuery lower m associations
          (VArr (map fst resolved ++ include :: rest))
        = Throw (Error ("Association " ++ toString key ++ " not found on "
                          ++ Schema.name m))).
Proof.
  intros Hres. split.
  - unfold Relations.createJoinQuery, bind, lift.
    cbn [select from modify Relations.iterate String.eqb Ascii.eqb Bool.eqb].
    pose proof (add_includes_resolved lower m associations resolved [] 
                  (set_from (Schema.tableName m)
                     (set_select [VStr "*"] constructor)) Hres) as H.
    rewrite app_nil_r in H. rewrite H. reflexivity.
  - intros include key rest Hk Hnone.
    unfold Relations.createJoinQuery, bind, lift.
    cbn [select from modify Relations.iterate String.eqb Ascii.eqb Bool.eqb].
    rewrite (add_includes_resolved lower m associations resolved
               (include :: rest) _ Hres).
    cbn [Relations.add_includes]. unfold bind, lift. rewrite Hk, Hnone.
    reflexivity.
Qed.

Lemma createJoinQuery_joins_witness :
  let lower := fun s : string => s in
  let post := Schema.mkModel "post" (VStr "posts")
                (VObj [("id", VObj [("type", VStr "UInt32");
                                    ("primaryKey", VBool true)])])
                (VObj []) in
  let user := Schema.mkModel "user" (VStr "users")
                (VObj [("id", VObj [("type", VStr "UInt32");
                                    ("primaryKey", VBool true)])])
                (VObj []) in
  let associations := ModelOps.hasMany post VUndefined [] in
  fst (build
         match Relations.createJoinQuery lower user associations
                 (VArr [VObj [("model", VStr "post")]]) with
         | Normal q => q
         | Throw _ => constructor
         end)
  = Normal "SELECT * FROM users LEFT JOIN posts ON users.id = posts.user_id".
Proof.
  intros lower post user associations.
  destruct (createJoinQuery_joins lower user associations
              [(VObj [("model", VStr "post")],
                (ModelOps.mkAssociation (VStr "hasMany") post (VObj []),
                 "users.id = posts.user_id"))]) as [H _].
  - repeat constructor. exists (VStr "post"). repeat split.
  - cbn [map fst] in H. rewrite H. reflexivity.
Defined.

(** With a client that accepts everything, [createTable] sends the
    statement of the model and completes. *)
Lemma createTable_accepted (d : Connection.driver) (m : Schema.model)
  (options rows : value) (sql : string) (s : Connection.state) :
  fst (Connection.connect d s) = Normal true ->
  answers d rows ->
  Schema.generateCreateTableSQL m (options_or_empty options) = Normal sql ->
  SchemaOps.createTable d m options s
  = (Normal tt, sent_one (snd (Connection.connect d s)) (plain sql)).
Proof.
  intros Hc Hans Hsql.
  unfold SchemaOps.createTable. fold (options_or_empty options).
  unfold bind, lift, try_catch, ret, throw. rewrite Hsql.
  now rewrite (query_plain_answer d sql s rows Hc (Hans _ _)).
Qed.

Lemma sent_one_ready (d : Connection.driver) (s : Connection.state)
  (req : Connection.request) :
  fst (Connection.connect d s) = Normal true ->
  fst (Connection.connect d
         (sent_one (snd (Connection.connect d s)) req)) = Normal true
  /\ snd (Connection.connect d
            (sent_one (snd (Connection.connect d s)) req))
     = sent_one (snd (Connection.connect d s)) req.
Proof.
  intros Hc. destruct (connect_ready d s Hc) as [[Hi Hcl] _].
  rewrite connect_connected; [now split|].
  split; assumption.
Qed.

Lemma sync_models_accepted (d : Connection.driver) (rows options : value)
  (ms rest : list Schema.model) (sqls : list string) (s : Connection.state) :
  fst (Connection.connect d s) = Normal true ->
  answers d rows ->
  Forall2 (fun m sql =>
             Schema.generateCreateTableSQL m (options_or_empty options)
             = Normal sql) ms sqls ->
  exists s1,
    Orm.sync_models d (ms ++ rest) options s
    = Orm.sync_models d rest options s1
    /\ Connection.sent s1 = (Connection.sent s ++ map plain sqls)%list
    /\ (ms = [] -> s1 = s).
Proof.
  intros Hc Hans Hgen. revert s Hc.
  induction Hgen as [|m sql ms sqls Hsql Hgen IH]; intros s Hc.
  - exists s. cbn [app map]. rewrite app_nil_r. now repeat split.
  - cbn [app Orm.sync_models]. unfold bind at 1.
    rewrite (createTable_accepted d m options rows sql s Hc Hans Hsql).
    destruct (sent_one_ready d s (plain sql) Hc) as [Hc1 _].
    destruct (IH _ Hc1) as [s1 [Hrun [Hsent _]]].
    exists s1. split; [exact Hrun|]. split; [|discriminate].
    rewrite Hsent. unfold sent_one. cbn [Connection.sent map].
    destruct (connect_ready d s Hc) as [_ [Hs _]].
    now rewrite Hs, <- app_assoc.
Qed.

(** X30.  [sync] creates the tables of the registered models one after the
    other, in the order of their registration: with a client that accepts
    every statement it sends exactly the CREATE TABLE statements of the
    models, in that order; and when the statement of a model cannot be
    generated, [sync] stops there with that error, having sent the
    statements of the models before it and none of those after it. *)
Theorem sync_in_registration_order (d : Connection.driver)
  (rows options : value) (models : list (string * Schema.model))
  (ms : list Schema.model) (sqls : list string) (s : Connection.state) :
  fst (Connection.connect d s) = Normal true ->
  answers d rows ->
  Forall2 (fun m sql =>
             Schema.generateCreateTableSQL m (options_or_empty options)
             = Normal sql) ms sqls ->
  (Orm.getModels models = ms ->
   fst (Orm.sync d models options s) = Normal tt
   /\ Connection.sent (snd (Orm.sync d models options s))
      = (Connection.sent s ++ map plain sqls)%list)
  /\ (forall bad rest e,
        Orm.getModels models = (ms ++ bad :: rest)%list ->
        Schema.generateCreateTableSQL bad (options_or_empty options)
        = Throw e ->
        fst (Orm.sync d models options s) = Throw e
        /\ Connection.sent (snd (Orm.sync d models options s))
           = (Connection.sent s ++ map plain sqls)%list).
Proof.
  intros Hc Hans Hgen.
  assert (Hoo : options_or_empty (options_or_empty options)
                = options_or_empty options) by now destruct options.
  split.
  - intros Hms. unfold Orm.sync. fold (options_or_empty options).
    rewrite Hms.
    assert (Hgen' : Forall2 (fun m sql =>
              Schema.generateCreateTableSQL m
                (options_or_empty (options_or_empty options)) = Normal sql)
              ms sqls) by now rewrite Hoo.
    destruct (sync_models_accepted d rows (options_or_empty options) ms []
                sqls s Hc Hans Hgen') as [s1 [Hrun [Hsent _]]].
    rewrite app_nil_r in Hrun. rewrite Hrun. cbn [Orm.sync_models ret].
    split; [reflexivity | exact Hsent].
  - intros bad rest e Hms Hbad. unfold Orm.sync.
    fold (options_or_empty options). rewrite Hms.
    assert (Hgen' : Forall2 (fun m sql =>
              Schema.generateCreateTableSQL m
                (options_or_empty (options_or_empty options)) = Normal sql)
              ms sqls) by now rewrite Hoo.
    destruct (sync_models_accepted d rows (options_or_empty options) ms
                (bad :: rest) sqls s Hc Hans Hgen') as [s1 [Hrun [Hsent _]]].
    rewrite Hrun. cbn [Orm.sync_models]. unfold bind at 1.
    unfold SchemaOps.createTable.
    fold (options_or_empty (options_or_empty options)). rewrite Hoo.
    unfold bind, lift. rewrite Hbad. cbn [fst snd]. now split.
Qed.

Lemma sync_in_registration_order_witness :
  let d := Connection.mkDriver (fun _ => Normal tt)
             (fun _ _ => Normal (Connection.mkResultSet (Normal VNull))) in
  let good := Schema.mkModel "A" (VStr "a") (VObj [("id", VStr "UInt32")])
                (VObj []) in
  let bad := Schema.mkModel "B" (VStr "b") (VObj [("id", VObj [])])
               (VObj []) in
  let s := Connection.mkState (VObj []) false false [] in
  fst (Orm.sync d [("A", good); ("B", bad); ("C", good)] VUndefined s)
  = Throw (Error "Data type is required for field id")
  /\ List.length
       (Connection.sent
          (snd (Orm.sync d [("A", good); ("B", bad); ("C", good)]
                  VUndefined s))) = 1%nat.
Proof.
  intros d good bad s.
  destruct (sync_in_registration_order d VNull VUndefined
              [("A", good); ("B", bad); ("C", good)] [good]
              [match Schema.generateCreateTableSQL good (VObj []) with
               | Normal sql => sql
               | Throw _ => ""
               end] s eq_refl) as [_ H].
  - intros history req. reflexivity.
  - repeat constructor.
  - destruct (H bad [good] (Error "Data type is required for field id")
                eq_refl eq_refl) as [Hfail Hsent].
    split; [exact Hfail | now rewrite Hsent].
Defined.
